(** * Product catalog controller: a shallow embedding

    The handlers of [src/controllers/product.controller.js] are embedded as
    programs of a small promise monad (state passing over the collaborators'
    state, with rejection).  The collaborators whose code is not part of the
    controller (the document store behind the [Product] model, the media
    hosting utility, the regular-expression engine) are either modelled from
    the specification or taken as parameters through type classes. *)

From Stdlib Require Import ZArith Lia Ascii String.
From stdpp Require Import gmap strings list fin_maps pretty.

Set Warnings "-register-all".
Local Open Scope Z_scope.
Local Open Scope string_scope.

(** ** JavaScript values

    Request bodies, stored documents and collaborator results are JSON-like
    values.  Numbers carried inside documents are integers here: no handler
    computes with a number read from a document. *)

Inductive value : Type :=
  | VUndefined
  | VNull
  | VBool (b : bool)
  | VNum (n : Z)
  | VStr (s : string)
  | VArr (l : list value)
  | VObj (o : list (string * value)).

(** A Mongoose document is used by the controller as a map from field names
    to values ([product[key] = ...], [delete productData._id]). *)
Abbreviation doc := (gmap string value).

(** [x.k] on a document: an absent field reads as [undefined]. *)
Definition field (p : doc) (k : string) : value := default VUndefined (p !! k).

(** Lookup in the ordered field list of a nested object. *)
Fixpoint assoc (k : string) (o : list (string * value)) : option value :=
  match o with
  | [] => None
  | (k', v) :: o' => if String.eqb k k' then Some v else assoc k o'
  end.

(** [v.k] on a value that is neither [null] nor [undefined]: primitives and
    arrays have no such own property. *)
Definition prop (v : value) (k : string) : value :=
  match v with
  | VObj o => default VUndefined (assoc k o)
  | _ => VUndefined
  end.

(** JavaScript truthiness ([if (x)], [!x], [a && b]). *)
Definition truthy (v : value) : bool :=
  match v with
  | VUndefined | VNull => false
  | VBool b => b
  | VNum n => negb (Z.eqb n 0)
  | VStr s => negb (String.eqb s "")
  | VArr _ | VObj _ => true
  end.

(** Truthiness of an optional query-string parameter. *)
Definition supplied (q : option string) : option string :=
  match q with
  | Some s => if String.eqb s "" then None else Some s
  | None => None
  end.

(** [Array.prototype.join(",")] over already converted elements. *)
Fixpoint join_comma (l : list string) : string :=
  match l with
  | [] => ""
  | [s] => s
  | s :: l' => s +:+ "," +:+ join_comma l'
  end.

(** [ToString], as a template literal applies it. *)
Fixpoint ToString (v : value) : string :=
  match v with
  | VUndefined => "undefined"
  | VNull => "null"
  | VBool true => "true"
  | VBool false => "false"
  | VNum n => pretty n
  | VStr s => s
  | VArr l =>
      join_comma
        (map (fun x => match x with
                       | VUndefined | VNull => ""
                       | _ => ToString x
                       end) l)
  | VObj _ => "[object Object]"
  end.

(** Strict equality of two values, structural on arrays and nested
    objects as the store compares them. *)
Fixpoint value_eqb (a b : value) : bool :=
  match a, b with
  | VUndefined, VUndefined => true
  | VNull, VNull => true
  | VBool x, VBool y => Bool.eqb x y
  | VNum x, VNum y => Z.eqb x y
  | VStr x, VStr y => String.eqb x y
  | VArr x, VArr y =>
      (fix go (x y : list value) : bool :=
         match x, y with
         | [], [] => true
         | a :: x', b :: y' => value_eqb a b && go x' y'
         | _, _ => false
         end) x y
  | VObj x, VObj y =>
      (fix go (x y : list (string * value)) : bool :=
         match x, y with
         | [], [] => true
         | (k, a) :: x', (k', b) :: y' =>
             String.eqb k k' && value_eqb a b && go x' y'
         | _, _ => false
         end) x y
  | _, _ => false
  end.

(** ** Errors and promises *)

Inductive error : Type :=
  | SyntaxError (msg : string)
  | TypeError (msg : string)
  | URIError (msg : string)
  | StoreError (msg : string)
  | MediaError (msg : string).

(** The settled state of an awaited computation. *)
Inductive outcome (A : Type) : Type :=
  | Resolved (a : A)
  | Rejected (e : error).
Arguments Resolved {A} a.
Arguments Rejected {A} e.

(** ** Collaborators *)

(** Modelled from the spec: the media hosting utility
    ([src/utils/imageUpload.util]) is not among the sources.  The spec gives
    it bulk and single deletion by [publicId] and uploads that return image
    references.  Each call is asynchronous: it settles as resolved or as
    rejected and may change the hosting service's own state [Cloud]; nothing
    more is assumed about it. *)
Class MediaCollaborator : Type := {
  Cloud : Type;
  deleteMultipleImages : list value -> Cloud -> outcome value * Cloud;
  deleteCloudinaryImage : value -> Cloud -> outcome value * Cloud;
  uploadProductImages : list value -> Cloud -> outcome value * Cloud;
  uploadSizeChartImage : value -> Cloud -> outcome value * Cloud
}.

(** The built-ins of the JavaScript runtime that the handlers call:
    [new RegExp(pattern, flags)] throws or yields a regular expression,
    [decodeURIComponent] throws on a malformed escape. *)
Class JSRuntime : Type := {
  RegExp : Type;
  RegExp_new : string -> string -> outcome RegExp;
  decodeURIComponent : string -> outcome string
}.

(** The parts of the document store that the spec leaves to the store
    itself: how it matches a regular expression against a text, its value
    ordering for [sort], the text index behind [$text], identifier and
    timestamp assignment, and the sku persistence hook. *)
Class StoreEngine `{JSRuntime} : Type := {
  regex_match : RegExp -> string -> bool;
  bson_leb : value -> value -> bool;
  text_match : string -> doc -> bool;
  new_id : list doc -> value;
  now : list doc -> value;
  gen_sku : doc -> value
}.

(** ** Query conditions

    A query object is the conjunction of its entries; [$or] holds
    alternatives. *)
Inductive cond `{JSRuntime} : Type :=
  | FieldIs (k : string) (v : value)
  | FieldLike (k : string) (r : RegExp)
  | TextSearch (s : string)
  | AnyOf (alts : list cond).

(** ** Requests and responses *)

(** [Math.ceil(count / limit)] on integers: a number, [Infinity] or [NaN]
    (the last two when the divisor is zero). *)
Inductive number : Type :=
  | Int (z : Z)
  | Infinity
  | NaN.

Definition ceil_div (count limit : Z) : number :=
  if Z.eqb limit 0 then (if Z.eqb count 0 then NaN else Infinity)
  else Int (- ((- count) / limit)).

Inductive payload : Type :=
  | OneProduct (product : doc)
  | ManyProducts (products : list doc)
  | Images (images : value)
  | Image (image : value).

(** The response envelope [{success, message?, count?, total?, totalPages?,
    currentPage?, data?}]. *)
Record envelope : Type := mkEnvelope {
  success : bool;
  message : option string;
  count : option Z;
  total : option Z;
  totalPages : option number;
  currentPage : option Z;
  data : option payload
}.

(** How a handler ends: [res.status(code).json(body)] or [next(error)]. *)
Inductive reply : Type :=
  | Send (status : Z) (body : envelope)
  | Next (e : error).

Definition failure (msg : string) : envelope :=
  mkEnvelope false (Some msg) None None None None None.

Definition done_with (msg : string) (d : option payload) : envelope :=
  mkEnvelope true (Some msg) None None None None d.

(** The query string of [GET /api/products].  [page] and [limit] are
    carried as the integers their numerals denote, which is what
    [limit * 1], [(page - 1) * limit] and [count / limit] coerce them to;
    numerals that are not integers are outside this model. *)
Record list_request : Type := mkListRequest {
  rq_page : option Z;
  rq_limit : option Z;
  rq_search : option string;
  rq_category : option string;
  rq_brand : option string;
  rq_sortBy : option string
}.

Definition immutableFields : list string :=
  ["_id"; "__v"; "createdAt"; "updatedAt"].

(** [array.includes(key)] *)
Definition includes (l : list string) (key : string) : bool :=
  existsb (String.eqb key) l.
Arguments includes : simpl never.

(** [Object.keys(obj)] *)
Definition Object_keys (o : doc) : list string := (map_to_list o).*1.

(** The images of a product.  [images] is an array path of the schema, so a
    document always presents it as an array (empty when nothing is
    stored). *)
Definition images_of (p : doc) : list value :=
  match p !! "images" with
  | Some (VArr l) => l
  | _ => []
  end.

Definition nullish (v : value) : bool :=
  match v with
  | VUndefined | VNull => true
  | _ => false
  end.

(** [img.publicId]: reading a property of [null] or [undefined] throws. *)
Definition publicId_of (img : value) : outcome value :=
  if nullish img then
    Rejected (TypeError "Cannot read properties of null (reading 'publicId')")
  else Resolved (prop img "publicId").

(** The data model's [images]: a sequence of subdocuments
    [{url, publicId}], none of them [null] or [undefined]. *)
Definition images_sound (p : doc) : bool :=
  forallb (fun img => negb (nullish img)) (images_of p).

(** [array.map(f)] for an [f] that may throw. *)
Fixpoint map_outcome {A B} (f : A -> outcome B) (l : list A) : outcome (list B) :=
  match l with
  | [] => Resolved []
  | x :: l' =>
      match f x with
      | Resolved y =>
          match map_outcome f l' with
          | Resolved ys => Resolved (y :: ys)
          | Rejected e => Rejected e
          end
      | Rejected e => Rejected e
      end
  end.

(** Case-insensitive literal substring matching, the reading of "matches
    case-insensitively" that involves no pattern syntax. *)
Definition to_lower (c : ascii) : ascii :=
  let n := nat_of_ascii c in
  if (Nat.leb 65 n && Nat.leb n 90)%bool then ascii_of_nat (n + 32) else c.

Fixpoint prefix_ci (needle hay : list ascii) : bool :=
  match needle, hay with
  | [], _ => true
  | a :: needle', b :: hay' =>
      Ascii.eqb (to_lower a) (to_lower b) && prefix_ci needle' hay'
  | _ :: _, [] => false
  end.

Fixpoint occurs_ci (needle hay : list ascii) : bool :=
  prefix_ci needle hay ||
  match hay with
  | [] => false
  | _ :: hay' => occurs_ci needle hay'
  end.

Definition contains_ci (needle : string) (v : value) : bool :=
  match v with
  | VStr s => occurs_ci (list_ascii_of_string needle) (list_ascii_of_string s)
  | _ => false
  end.

Definition literal_hit (q : string) (d : doc) : bool :=
  contains_ci q (field d "name") || contains_ci q (field d "brand")
  || contains_ci q (field d "description").

Section Controller.
Context `{Media : MediaCollaborator} `{RT : JSRuntime}
        `{Store : !StoreEngine}.

(** Everything a request can observe or change. *)
Record World : Type := mkWorld {
  products : list doc;
  shippingStructures : list doc;
  cloud : Cloud;
  console : list (string * error)
}.

(** *** The promise monad *)

Definition M (A : Type) : Type := World -> outcome A * World.

Definition ret {A} (a : A) : M A := fun w => (Resolved a, w).

Definition bind {A B} (m : M A) (k : A -> M B) : M B :=
  fun w =>
    match m w with
    | (Resolved a, w') => k a w'
    | (Rejected e, w') => (Rejected e, w')
    end.

(** [promise.catch(handler)] *)
Definition catch {A} (m : M A) (h : error -> M A) : M A :=
  fun w =>
    match m w with
    | (Resolved a, w') => (Resolved a, w')
    | (Rejected e, w') => h e w'
    end.

(** A synchronous expression that may throw. *)
Definition settle {A} (o : outcome A) : M A := fun w => (o, w).

(** A call into the media collaborator. *)
Definition media {A} (f : Cloud -> outcome A * Cloud) : M A :=
  fun w =>
    let (o, c) := f (cloud w) in
    (o, mkWorld (products w) (shippingStructures w) c (console w)).

(** [console.error(label, err)]; evaluates to [undefined]. *)
Definition console_error (label : string) (e : error) : M value :=
  fun w =>
    (Resolved VUndefined,
     mkWorld (products w) (shippingStructures w) (cloud w)
             (console w ++ [(label, e)])).

Notation "x <- m ;; k" := (bind m (fun x => k))
  (at level 100, m at next level, right associativity).

(** *** The document store

    The [Product] model ([src/models/Product.model]) and the store behind
    it are not among the sources.  The spec's document store "persists
    product records" and "provides filtering, text search, sort,
    pagination primitives".  A collection is the list of its documents in
    insertion order, each carrying its own [_id].  What a model layer may
    add to a write (schema validation, casting, the upkeep of [updatedAt]
    and of the version marker, a refusal) is not in the spec's account of
    "persists": the update and the delete handlers are therefore given
    first for any behaviour of [document.save()] ([updateProduct_on],
    [deleteProduct_on]), and then with the plain store below. *)

(** Modelled from the spec: [id] is the "opaque unique identifier assigned
    by the store"; a record is the document that carries it as [_id]. *)
Definition has_id (i : value) (d : doc) : bool := value_eqb (field d "_id") i.

(** Modelled from the spec: [Product.findById(id)] resolves to the record
    with that id, active or not, or to [null] when there is none.  The
    routes put [objectIdValidation] in front of every handler that takes an
    id, so an id that reaches a handler is a well-formed one. *)
Definition findById (i : string) : M (option doc) :=
  fun w => (Resolved (List.find (has_id (VStr i)) (products w)), w).

(** Modelled from the spec: persisting a record replaces the stored
    document it names, or adds it when there is none. *)
Fixpoint replace_first (f : doc -> bool) (d : doc) (l : list doc) : list doc :=
  match l with
  | [] => [d]
  | x :: l' => if f x then d :: l' else x :: replace_first f d l'
  end.

(** Modelled from the spec: [document.save()] "persists" the record under
    the [_id] it carries and resolves to it.  This is the plain store: it
    accepts every write and keeps the document as handed over. *)
Definition save (d : doc) : M doc :=
  fun w =>
    (Resolved d,
     mkWorld (replace_first (has_id (field d "_id")) d (products w))
             (shippingStructures w) (cloud w) (console w)).

(** Modelled from the spec: creation "persists and returns the created
    record with assigned id/timestamps/sku"; the sku is "auto-generated on
    creation if absent", by a persistence hook. *)
Definition assign (st : list doc) (data : doc) : doc :=
  let data := if truthy (field data "sku") then data
              else <["sku" := gen_sku data]> data in
  <["_id" := new_id st]>
    (<["__v" := VNum 0]>
       (<["createdAt" := now st]> (<["updatedAt" := now st]> data))).

(** Modelled from the spec: [Product.create(data)] adds the record, with
    what the store assigns, to the collection and resolves to it. *)
Definition create (data : doc) : M doc :=
  fun w =>
    let d := assign (products w) data in
    (Resolved d,
     mkWorld (products w ++ [d])%list (shippingStructures w) (cloud w)
             (console w)).

(** Modelled from the spec: a regular expression as the condition on a
    field holds when the store finds a match in the field's text (in one
    of its texts, for an array). *)
Definition like (r : RegExp) (v : value) : bool :=
  match v with
  | VStr s => regex_match r s
  | VArr l =>
      existsb (fun x => match x with
                        | VStr s => regex_match r s
                        | _ => false
                        end) l
  | _ => false
  end.

(** Modelled from the spec: the store's "filtering" primitive, one
    condition at a time. *)
Fixpoint holds (c : cond) (d : doc) : bool :=
  match c with
  | FieldIs k v => value_eqb (field d k) v
  | FieldLike k r => like r (field d k)
  | TextSearch s => text_match s d
  | AnyOf alts => existsb (fun a => holds a d) alts
  end.

(** Modelled from the spec: a document satisfies a query object when it
    satisfies each of its entries. *)
Definition matches (q : list cond) (d : doc) : bool :=
  forallb (fun c => holds c d) q.

(** Modelled from the spec: [Product.countDocuments(query)] resolves to
    the number of records that satisfy the query. *)
Definition countDocuments (q : list cond) : M Z :=
  fun w => (Resolved (Z.of_nat (length (List.filter (matches q) (products w)))), w).

(** Modelled from the spec: a query under construction,
    [find(...).populate(...).sort(...).limit(...).skip(...)]. *)
Record query : Type := mkQuery {
  q_filter : list cond;
  q_populate : bool;
  q_sort : option string;
  q_limit : option Z;
  q_skip : option Z
}.

Definition find (q : list cond) : query := mkQuery q false None None None.

Definition populate (qy : query) : query :=
  mkQuery (q_filter qy) true (q_sort qy) (q_limit qy) (q_skip qy).

Definition sort (s : string) (qy : query) : query :=
  mkQuery (q_filter qy) (q_populate qy) (Some s) (q_limit qy) (q_skip qy).

Definition limit (n : Z) (qy : query) : query :=
  mkQuery (q_filter qy) (q_populate qy) (q_sort qy) (Some n) (q_skip qy).

Definition skip (n : Z) (qy : query) : query :=
  mkQuery (q_filter qy) (q_populate qy) (q_sort qy) (q_limit qy) (Some n).

(** Modelled from the spec: the "sort" primitive.  A sort key such as
    ["-createdAt name"] lists paths separated by spaces, a leading [-]
    asking for descending order; values are compared by the store's own
    ordering ([bson_leb]), which also decides where equal keys fall.  The
    spec fixes no order among ties, and nothing below relies on one: a
    sort is used only as a rearrangement of the selection. *)
Fixpoint split_spaces (s : string) : list string :=
  match s with
  | EmptyString => [EmptyString]
  | String c s' =>
      if Ascii.eqb c " "%char then EmptyString :: split_spaces s'
      else match split_spaces s' with
           | w :: ws => String c w :: ws
           | [] => [String c EmptyString]
           end
  end.

Definition sort_keys (s : string) : list (bool * string) :=
  map (fun w => match w with
                | String "-"%char k => (true, k)
                | _ => (false, w)
                end)
      (List.filter (fun w => negb (String.eqb w "")) (split_spaces s)).

Definition key_leb (key : bool * string) (a b : doc) : bool :=
  let (desc, k) := key in
  if desc then bson_leb (field b k) (field a k)
  else bson_leb (field a k) (field b k).

Fixpoint insert_by (le : doc -> doc -> bool) (x : doc) (l : list doc) : list doc :=
  match l with
  | [] => [x]
  | y :: l' => if le x y then x :: y :: l' else y :: insert_by le x l'
  end.

Definition isort (le : doc -> doc -> bool) (l : list doc) : list doc :=
  foldr (insert_by le) [] l.

Definition order_by (s : string) (l : list doc) : list doc :=
  foldr (fun key acc => isort (key_leb key) acc) l (sort_keys s).

(** Modelled from the spec: [shippingStructure] is a reference "resolved
    by the store's join/populate primitive at read time".
    [populate('shippingStructure', 'name rules isDefault')] replaces it by
    the selected fields of the shipping structure it names, or by [null]
    when there is none. *)
Definition summary (s : doc) : value :=
  VObj (omap (fun k => (fun v => (k, v)) <$> s !! k)
             ["_id"; "name"; "rules"; "isDefault"]).

Definition populate_one (ships : list doc) (d : doc) : doc :=
  match d !! "shippingStructure" with
  | Some ref =>
      if truthy ref then
        <["shippingStructure" :=
            match List.find (has_id ref) ships with
            | Some s => summary s
            | None => VNull
            end]> d
      else d
  | None => d
  end.

(** Modelled from the spec: the "pagination" primitive.  The store refuses
    a negative [skip]; [limit(0)] is no limit and a negative limit counts
    as its absolute value. *)
Definition window (lim skp : option Z) (l : list doc) : outcome (list doc) :=
  let s := default 0 skp in
  if Z.ltb s 0 then Rejected (StoreError "Skip value must be non-negative")
  else
    let l' := drop (Z.to_nat s) l in
    Resolved match lim with
             | Some n => if Z.eqb n 0 then l' else take (Z.to_nat (Z.abs n)) l'
             | None => l'
             end.

(** Modelled from the spec: awaiting a query runs it: filter, sort, then
    the window, then population of the page. *)
Definition exec (qy : query) : M (list doc) :=
  fun w =>
    let hits := List.filter (matches (q_filter qy)) (products w) in
    let sorted := match q_sort qy with
                  | Some s => order_by s hits
                  | None => hits
                  end in
    match window (q_limit qy) (q_skip qy) sorted with
    | Resolved page =>
        (Resolved (if q_populate qy
                   then map (populate_one (shippingStructures w)) page
                   else page), w)
    | Rejected e => (Rejected e, w)
    end.

(** Modelled from the spec: [findById(id).populate(...)]. *)
Definition populated (m : M (option doc)) : M (option doc) :=
  fun w =>
    match m w with
    | (Resolved o, w') =>
        (Resolved (populate_one (shippingStructures w') <$> o), w')
    | (Rejected e, w') => (Rejected e, w')
    end.

(** *** The handlers *)

(** [try { ... } catch (error) { next(error) }] *)
Definition handler (m : M reply) : World -> reply * World :=
  fun w =>
    match m w with
    | (Resolved r, w') => (r, w')
    | (Rejected e, w') => (Next e, w')
    end.

(** GET /api/products *)
Definition getAllProducts (req : list_request) : World -> reply * World :=
  handler (
    let page := default 1 (rq_page req) in
    let limit_ := default 10 (rq_limit req) in
    let sortBy := default "-createdAt" (rq_sortBy req) in
    let query := [FieldIs "isActive" (VBool true)] in
    let query := match supplied (rq_search req) with
                 | Some search => (query ++ [TextSearch search])%list
                 | None => query
                 end in
    let query := match supplied (rq_category req) with
                 | Some category => (query ++ [FieldIs "category" (VStr category)])%list
                 | None => query
                 end in
    query <- match supplied (rq_brand req) with
             | Some brand =>
                 r <- settle (RegExp_new brand "i") ;;
                 ret (query ++ [FieldLike "brand" r])%list
             | None => ret query
             end ;;
    products <- exec (skip ((page - 1) * limit_)
                        (limit (limit_ * 1)
                           (sort sortBy (populate (find query))))) ;;
    count <- countDocuments query ;;
    ret (Send 200
           (mkEnvelope true None (Some (Z.of_nat (length products)))
              (Some count) (Some (ceil_div count limit_)) (Some page)
              (Some (ManyProducts products))))).

(** GET /api/products/:id *)
Definition getProduct (id : string) : World -> reply * World :=
  handler (
    product <- populated (findById id) ;;
    match product with
    | None => ret (Send 404 (failure "Product not found"))
    | Some product =>
        ret (Send 200
               (mkEnvelope true None None None None None
                  (Some (OneProduct product))))
    end).

(** POST /api/products *)
Definition createProduct (body : doc) : World -> reply * World :=
  handler (
    product <- create body ;;
    ret (Send 201
           (done_with "Product created successfully"
              (Some (OneProduct product))))).

(** The [forEach] over the keys of the request body.
    [product[key] = req.body[key]] sets the field of that name, except
    under the key [__proto__], which names the prototype of the object and
    not a field: that assignment leaves every field as it is. *)
Definition overwrite (body : doc) (product : doc) : doc :=
  fold_left
    (fun product key =>
       if negb (includes immutableFields key)
       then if String.eqb key "__proto__" then product
            else <[key := field body key]> product
       else product)
    (Object_keys body) product.

(** The keys under which the loop leaves a field alone. *)
Definition kept (k : string) : bool :=
  includes immutableFields k || String.eqb k "__proto__".

(** Whether the loop leaves the document without its [save] method.  The
    key [save] is not among the skipped ones, so the body's value takes the
    place of the method; an object, an array or [null] under [__proto__]
    takes the place of the prototype that holds the method (a primitive
    there is ignored). *)
Definition loses_save (body : doc) : bool :=
  match body !! "save" with
  | Some _ => true
  | None => false
  end
  || match body !! "__proto__" with
     | Some (VObj _) | Some (VArr _) | Some VNull => true
     | _ => false
     end.

(** PUT /api/products/:id, for any behaviour [persist] of
    [document.save()].  [save] works on the document in place, so the
    response carries the document as [save] left it; when the loop has
    taken the method away, the call [product.save()] throws. *)
Definition updateProduct_on (persist : doc -> M doc) (id : string)
    (body : doc) : World -> reply * World :=
  handler (
    product <- findById id ;;
    match product with
    | None => ret (Send 404 (failure "Product not found"))
    | Some product =>
        let product := overwrite body product in
        product <- (if loses_save body
                    then settle (Rejected
                                   (TypeError "product.save is not a function"))
                    else persist product) ;;
        ret (Send 200
               (done_with "Product updated successfully"
                  (Some (OneProduct product))))
    end).

(** PUT /api/products/:id, on the plain store. *)
Definition updateProduct (id : string) (body : doc) : World -> reply * World :=
  updateProduct_on save id body.

(** The first cleanup block of the delete handler: all product images,
    with its own [.catch]. *)
Definition cleanup_images (product : doc) : M value :=
  match images_of product with
  | [] => ret VUndefined
  | images =>
      publicIds <- settle (map_outcome publicId_of images) ;;
      catch (media (deleteMultipleImages publicIds))
            (fun err => console_error "Error deleting product images:" err)
  end.

(** The second cleanup block: the size chart image, with its own
    [.catch]. *)
Definition cleanup_sizeChart (product : doc) : M value :=
  if truthy (field product "sizeChart")
     && truthy (prop (field product "sizeChart") "imagePublicId")
  then
    catch (media (deleteCloudinaryImage
                    (prop (field product "sizeChart") "imagePublicId")))
          (fun err => console_error "Error deleting size chart image:" err)
  else ret VUndefined.

(** DELETE /api/products/:id, for any behaviour [persist] of
    [document.save()]. *)
Definition deleteProduct_on (persist : doc -> M doc) (id : string)
    : World -> reply * World :=
  handler (
    product <- findById id ;;
    match product with
    | None => ret (Send 404 (failure "Product not found"))
    | Some product =>
        _ <- cleanup_images product ;;
        _ <- cleanup_sizeChart product ;;
        let product := <["isActive" := VBool false]> product in
        _ <- persist product ;;
        ret (Send 200 (done_with "Product deleted successfully" None))
    end).

(** DELETE /api/products/:id, on the plain store. *)
Definition deleteProduct (id : string) : World -> reply * World :=
  deleteProduct_on save id.

(** GET /api/products/search *)
Definition searchProducts (q : option string) : World -> reply * World :=
  handler (
    match supplied q with
    | None => ret (Send 400 (failure "Search query is required"))
    | Some q =>
        byName <- settle (RegExp_new q "i") ;;
        byBrand <- settle (RegExp_new q "i") ;;
        byDescription <- settle (RegExp_new q "i") ;;
        products <- exec (limit 20
                            (find [AnyOf [FieldLike "name" byName;
                                          FieldLike "brand" byBrand;
                                          FieldLike "description" byDescription];
                                   FieldIs "isActive" (VBool true)])) ;;
        ret (Send 200
               (mkEnvelope true None (Some (Z.of_nat (length products)))
                  None None None (Some (ManyProducts products))))
    end).

(** POST /api/products/upload/images *)
Definition uploadImages (files : option (list value)) : World -> reply * World :=
  handler (
    match files with
    | None | Some [] => ret (Send 400 (failure "No images provided"))
    | Some files =>
        uploadedImages <- media (uploadProductImages files) ;;
        ret (Send 200
               (done_with "Images uploaded successfully"
                  (Some (Images uploadedImages))))
    end).

(** DELETE /api/products/images/:publicId *)
Definition deleteImage (publicId : string) : World -> reply * World :=
  handler (
    if String.eqb publicId "" then
      ret (Send 400 (failure "Public ID is required"))
    else
      decodedPublicId <- settle (decodeURIComponent publicId) ;;
      _ <- media (deleteCloudinaryImage (VStr decodedPublicId)) ;;
      ret (Send 200 (done_with "Image deleted successfully" None))).

(** POST /api/products/upload/size-chart *)
Definition uploadSizeChart (file : option value) : World -> reply * World :=
  handler (
    match file with
    | None => ret (Send 400 (failure "No image provided"))
    | Some file =>
        uploadedImage <- media (uploadSizeChartImage file) ;;
        ret (Send 200
               (done_with "Size chart uploaded successfully"
                  (Some (Image uploadedImage))))
    end).

(** The data handed to [Product.create] by the duplicate handler. *)
Definition copy_of (originalProduct : doc) : doc :=
  let productData := originalProduct in
  let productData := delete "_id" productData in
  let productData := delete "__v" productData in
  let productData := delete "createdAt" productData in
  let productData := delete "updatedAt" productData in
  let productData :=
    <["name" := VStr (ToString (field productData "name") +:+ " (Copy)")]>
      productData in
  let productData := <["sku" := VNull]> productData in
  let productData := <["averageRating" := VNum 0]> productData in
  <["reviewCount" := VNum 0]> productData.

(** POST /api/products/:id/duplicate *)
Definition duplicateProduct (id : string) : World -> reply * World :=
  handler (
    originalProduct <- findById id ;;
    match originalProduct with
    | None => ret (Send 404 (failure "Product not found"))
    | Some originalProduct =>
        duplicatedProduct <- create (copy_of originalProduct) ;;
        ret (Send 201
               (done_with "Product duplicated successfully"
                  (Some (OneProduct duplicatedProduct))))
    end).

(** *** The routes

    [src/routes/product.routes]: each route ends in one handler.  The
    middleware in front of the handlers (authentication, authorisation,
    validation, multipart parsing) is not part of this model: a request
    here is one that reached its handler. *)
Inductive request : Type :=
  | GET_products (q : list_request)
  | GET_products_search (q : option string)
  | GET_products_id (id : string)
  | POST_products (body : doc)
  | POST_products_id_duplicate (id : string)
  | PUT_products_id (id : string) (body : doc)
  | DELETE_products_id (id : string)
  | POST_products_upload_images (files : option (list value))
  | DELETE_products_images_publicId (publicId : string)
  | POST_products_upload_size_chart (file : option value).

Definition router (r : request) : World -> reply * World :=
  match r with
  | GET_products q => getAllProducts q
  | GET_products_search q => searchProducts q
  | GET_products_id id => getProduct id
  | POST_products body => createProduct body
  | POST_products_id_duplicate id => duplicateProduct id
  | PUT_products_id id body => updateProduct id body
  | DELETE_products_id id => deleteProduct id
  | POST_products_upload_images files => uploadImages files
  | DELETE_products_images_publicId publicId => deleteImage publicId
  | POST_products_upload_size_chart file => uploadSizeChart file
  end.

(** The success status of each operation class as the spec's table gives
    it: 200 for read, update and delete, 201 for create, duplicate and
    upload. *)
Definition status_by_spec (r : request) : Z :=
  match r with
  | POST_products _ | POST_products_id_duplicate _
  | POST_products_upload_images _ | POST_products_upload_size_chart _ => 201
  | _ => 200
  end.

Definition is_upload (r : request) : bool :=
  match r with
  | POST_products_upload_images _ | POST_products_upload_size_chart _ => true
  | _ => false
  end.

(** The success status of each operation as the handlers send it. *)
Definition status_sent (r : request) : Z :=
  match r with
  | POST_products _ | POST_products_id_duplicate _ => 201
  | _ => 200
  end.

(** *** What the listing operations select, in the spec's words

    List: always restricted to [isActive = true], with an optional text
    search, an optional category filter and an optional case-insensitive
    brand filter.  Search: a case-insensitive match on [name], [brand] or
    [description], restricted to [isActive = true]. *)
Definition active (d : doc) : bool := value_eqb (field d "isActive") (VBool true).

Definition selected (search category : option string) (brand : option RegExp)
    (d : doc) : bool :=
  active d
  && match search with Some s => text_match s d | None => true end
  && match category with
     | Some c => value_eqb (field d "category") (VStr c)
     | None => true
     end
  && match brand with Some r => like r (field d "brand") | None => true end.

Definition hit (r : RegExp) (d : doc) : bool :=
  (like r (field d "name") || like r (field d "brand")
   || like r (field d "description"))
  && active d.

(** The brand filter of a List request, once compiled. *)
Definition brand_filter (brand : option string) (re : option RegExp) : Prop :=
  match supplied brand with
  | Some s => exists r, re = Some r /\ RegExp_new s "i" = Resolved r
  | None => re = None
  end.

(** Which requests reach a handler that awaits the media collaborator,
    and which reach one that writes to the collection. *)
Definition awaits_media (r : request) : bool :=
  match r with
  | DELETE_products_id _ | POST_products_upload_images _
  | DELETE_products_images_publicId _ | POST_products_upload_size_chart _ =>
      true
  | _ => false
  end.

Definition writes_products (r : request) : bool :=
  match r with
  | POST_products _ | POST_products_id_duplicate _ | PUT_products_id _ _
  | DELETE_products_id _ => true
  | _ => false
  end.

(** The identifiers held by the collection, in its order. *)
Definition ids (w : World) : list value :=
  map (fun d => field d "_id") (products w).

End Controller.

(** The products a response lists, if it lists any. *)
Definition listed (r : reply) : list doc :=
  match r with
  | Send _ b =>
      match data b with
      | Some (ManyProducts l) => l
      | _ => []
      end
  | Next _ => []
  end.

(** ** The product routes

    [src/routes/product.routes] (the second file of the unnamed part)
    registers each route with its middleware chain and its handler.  A path
    is taken as its segments below the mount point, as they stand in the
    request line; a literal segment is compared without regard to case, as
    the router does by default, a parameter matches any segment that is
    not empty, and the first registered route that matches is the one that
    runs.  What a parameter captures is the segment as it stands: the
    router hands the handler its percent-decoded form, and refuses a
    capture that does not decode, which is outside this table. *)
Inductive method : Type := GET | POST | PUT | DELETE.

Inductive segment : Type :=
  | Lit (s : string)
  | Param (name : string).

Inductive middleware : Type :=
  | protect
  | authorize
  | productValidation
  | objectIdValidation
  | upload_array (fieldName : string) (maxCount : nat)
  | upload_single (fieldName : string).

Inductive controller : Type :=
  | to_getAllProducts
  | to_searchProducts
  | to_getProduct
  | to_createProduct
  | to_duplicateProduct
  | to_updateProduct
  | to_deleteProduct
  | to_uploadImages
  | to_deleteImage
  | to_uploadSizeChart.

Record route : Type := mkRoute {
  r_method : method;
  r_path : list segment;
  r_chain : list middleware;
  r_handler : controller
}.

Definition routes : list route :=
  [ mkRoute GET [] [] to_getAllProducts;
    mkRoute GET [Lit "search"] [] to_searchProducts;
    mkRoute GET [Param "id"] [objectIdValidation] to_getProduct;
    mkRoute POST [] [protect; authorize; productValidation] to_createProduct;
    mkRoute POST [Param "id"; Lit "duplicate"]
            [protect; authorize; objectIdValidation] to_duplicateProduct;
    mkRoute PUT [Param "id"] [protect; authorize; objectIdValidation]
            to_updateProduct;
    mkRoute DELETE [Param "id"] [protect; authorize; objectIdValidation]
            to_deleteProduct;
    mkRoute POST [Lit "upload"; Lit "images"]
            [protect; authorize; upload_array "images" 10] to_uploadImages;
    mkRoute DELETE [Lit "images"; Param "publicId"] [protect; authorize]
            to_deleteImage;
    mkRoute POST [Lit "upload"; Lit "size-chart"]
            [protect; authorize; upload_single "image"] to_uploadSizeChart ].

Definition method_eqb (a b : method) : bool :=
  match a, b with
  | GET, GET | POST, POST | PUT, PUT | DELETE, DELETE => true
  | _, _ => false
  end.

Definition lower_string (s : string) : string :=
  string_of_list_ascii (map to_lower (list_ascii_of_string s)).

Definition eq_ci (a b : string) : bool :=
  String.eqb (lower_string a) (lower_string b).

(** The segments a path's parameters capture when it fits a route's
    pattern. *)
Fixpoint match_path (pat : list segment) (segs : list string)
    : option (list (string * string)) :=
  match pat, segs with
  | [], [] => Some []
  | Lit l :: pat', s :: segs' =>
      if eq_ci l s then match_path pat' segs' else None
  | Param name :: pat', s :: segs' =>
      if String.eqb s "" then None
      else match match_path pat' segs' with
           | Some ps => Some ((name, s) :: ps)
           | None => None
           end
  | _, _ => None
  end.

(** Does a route fit a request, whatever was registered before it? *)
Definition fits (m : method) (segs : list string) (rt : route) : bool :=
  method_eqb (r_method rt) m
  && match match_path (r_path rt) segs with
     | Some _ => true
     | None => false
     end.

(** The route that serves a request, with the segments its parameters
    capture. *)
Fixpoint first_match (m : method) (segs : list string) (l : list route)
    : option (route * list (string * string)) :=
  match l with
  | [] => None
  | rt :: l' =>
      if method_eqb (r_method rt) m then
        match match_path (r_path rt) segs with
        | Some ps => Some (rt, ps)
        | None => first_match m segs l'
        end
      else first_match m segs l'
  end.

Definition dispatch (m : method) (segs : list string)
    : option (route * list (string * string)) :=
  first_match m segs routes.

(** ** A regular-expression engine for a fragment of the pattern syntax

    Literal characters, escaped syntax characters, [.], groups, alternation
    and the quantifiers [*], [+], [?] (greedy or lazy).  Matching is by
    derivatives; a pattern outside the fragment is refused.  The properties
    below hold for every runtime and store; this engine serves to
    instantiate them. *)
Module Fragment.

Inductive re : Type :=
  | Void
  | Eps
  | Chr (c : ascii)
  | Dot
  | Cat (r1 r2 : re)
  | Alt (r1 r2 : re)
  | Star (r : re).

Definition is_syntax (c : ascii) : bool :=
  existsb (Ascii.eqb c)
    (list_ascii_of_string "^$\.*+?()[]{}|/").

Definition quantified (r : re) (s : list ascii) : re * list ascii :=
  let lazy (rest : list ascii) :=
    match rest with
    | "?"%char :: rest' => rest'
    | _ => rest
    end in
  match s with
  | "*"%char :: rest => (Star r, lazy rest)
  | "+"%char :: rest => (Cat r (Star r), lazy rest)
  | "?"%char :: rest => (Alt Eps r, lazy rest)
  | _ => (r, s)
  end.

Fixpoint disjunction (fuel : nat) (s : list ascii) : option (re * list ascii) :=
  match fuel with
  | O => None
  | S n =>
      match alternative n s with
      | Some (r1, "|"%char :: rest) =>
          match disjunction n rest with
          | Some (r2, rest') => Some (Alt r1 r2, rest')
          | None => None
          end
      | other => other
      end
  end
with alternative (fuel : nat) (s : list ascii) : option (re * list ascii) :=
  match fuel with
  | O => None
  | S n =>
      match s with
      | [] | "|"%char :: _ | ")"%char :: _ => Some (Eps, s)
      | _ =>
          match term n s with
          | Some (t, rest) =>
              match alternative n rest with
              | Some (r, rest') => Some (Cat t r, rest')
              | None => None
              end
          | None => None
          end
      end
  end
with term (fuel : nat) (s : list ascii) : option (re * list ascii) :=
  match fuel with
  | O => None
  | S n =>
      match s with
      | "("%char :: rest =>
          match disjunction n rest with
          | Some (r, ")"%char :: rest') => Some (quantified r rest')
          | _ => None
          end
      | "\"%char :: c :: rest =>
          if is_syntax c then Some (quantified (Chr c) rest) else None
      | "."%char :: rest => Some (quantified Dot rest)
      | c :: rest =>
          if is_syntax c then None else Some (quantified (Chr c) rest)
      | [] => None
      end
  end.

Definition parse (pattern : string) : option re :=
  let s := list_ascii_of_string pattern in
  match disjunction (3 * length s + 3) s with
  | Some (r, []) => Some r
  | _ => None
  end.

Definition same (ci : bool) (a b : ascii) : bool :=
  if ci then Ascii.eqb (to_lower a) (to_lower b) else Ascii.eqb a b.

Definition line_end (c : ascii) : bool :=
  (Ascii.eqb c "010" || Ascii.eqb c "013")%bool.

Fixpoint nullable (r : re) : bool :=
  match r with
  | Void | Chr _ | Dot => false
  | Eps | Star _ => true
  | Cat r1 r2 => nullable r1 && nullable r2
  | Alt r1 r2 => nullable r1 || nullable r2
  end.

Fixpoint deriv (ci : bool) (c : ascii) (r : re) : re :=
  match r with
  | Void | Eps => Void
  | Chr a => if same ci a c then Eps else Void
  | Dot => if line_end c then Void else Eps
  | Cat r1 r2 =>
      if nullable r1
      then Alt (Cat (deriv ci c r1) r2) (deriv ci c r2)
      else Cat (deriv ci c r1) r2
  | Alt r1 r2 => Alt (deriv ci c r1) (deriv ci c r2)
  | Star r1 => Cat (deriv ci c r1) (Star r1)
  end.

(** Does some prefix of [s] match? *)
Fixpoint prefix_matches (ci : bool) (r : re) (s : list ascii) : bool :=
  nullable r ||
  match s with
  | [] => false
  | c :: s' => prefix_matches ci (deriv ci c r) s'
  end.

(** Does the expression match somewhere in [s]? *)
Fixpoint found (ci : bool) (r : re) (s : list ascii) : bool :=
  prefix_matches ci r s ||
  match s with
  | [] => false
  | _ :: s' => found ci r s'
  end.

Definition compile (pattern flags : string) : outcome (bool * re) :=
  match parse pattern with
  | Some r =>
      if String.eqb flags "i" then Resolved (true, r)
      else if String.eqb flags "" then Resolved (false, r)
      else Rejected (SyntaxError ("Invalid flags supplied to RegExp constructor '" +:+ flags +:+ "'"))
  | None => Rejected (SyntaxError ("Invalid regular expression: /" +:+ pattern +:+ "/"))
  end.

Definition test (r : bool * re) (s : string) : bool :=
  found (fst r) (snd r) (list_ascii_of_string s).

(** Percent decoding of escapes below [%80]; anything else after a [%] is
    refused. *)
Definition hex_digit (c : ascii) : option nat :=
  let n := nat_of_ascii c in
  if (Nat.leb 48 n && Nat.leb n 57)%bool then Some (n - 48)%nat
  else if (Nat.leb 65 n && Nat.leb n 70)%bool then Some (n - 55)%nat
  else if (Nat.leb 97 n && Nat.leb n 102)%bool then Some (n - 87)%nat
  else None.

Fixpoint decode (s : list ascii) : option (list ascii) :=
  match s with
  | [] => Some []
  | "%"%char :: rest =>
      match rest with
      | h :: l :: rest' =>
          match hex_digit h, hex_digit l, decode rest' with
          | Some a, Some b, Some d =>
              if Nat.ltb a 8 then Some (ascii_of_nat (16 * a + b) :: d)
              else None
          | _, _, _ => None
          end
      | _ => None
      end
  | c :: rest =>
      match decode rest with
      | Some d => Some (c :: d)
      | None => None
      end
  end.

End Fragment.

(** ** A concrete catalog

    Instances of the collaborators and a small store, on which the
    properties below are exercised. *)
Module Sample.

(** A hosting service that holds a set of handles: deleting a handle it
    does not hold is rejected, and so is a bulk deletion that names one. *)
Definition held (c : list string) (v : value) : bool :=
  match v with
  | VStr s => existsb (String.eqb s) c
  | _ => false
  end.

Definition drop_handle (c : list string) (v : value) : list string :=
  match v with
  | VStr s => List.filter (fun x => negb (String.eqb s x)) c
  | _ => c
  end.

Definition destroy (v : value) (c : list string) : outcome value * list string :=
  if held c v then (Resolved (VObj [("result", VStr "ok")]), drop_handle c v)
  else (Rejected (MediaError "not found"), c).

Definition destroy_all (ids : list value) (c : list string) : outcome value * list string :=
  if forallb (held c) ids
  then (Resolved (VObj [("result", VStr "ok")]), fold_left drop_handle ids c)
  else (Rejected (MediaError "not found"), c).

Definition handle_of (file : value) : string := "products/" +:+ ToString file.

Definition stored_as (file : value) : value :=
  VObj [("url", VStr ("https://media.example/" +:+ handle_of file));
        ("publicId", VStr (handle_of file))].

Definition upload_all (files : list value) (c : list string) : outcome value * list string :=
  (Resolved (VArr (map stored_as files)), (c ++ map handle_of files)%list).

Definition upload_one (file : value) (c : list string) : outcome value * list string :=
  (Resolved (stored_as file), (c ++ [handle_of file])%list).

#[export] Instance hosting : MediaCollaborator := {
  Cloud := list string;
  deleteMultipleImages := destroy_all;
  deleteCloudinaryImage := destroy;
  uploadProductImages := upload_all;
  uploadSizeChartImage := upload_one
}.

Definition decodeURI (s : string) : outcome string :=
  match Fragment.decode (list_ascii_of_string s) with
  | Some d => Resolved (string_of_list_ascii d)
  | None => Rejected (URIError "URI malformed")
  end.

#[export] Instance runtime : JSRuntime := {
  RegExp := bool * Fragment.re;
  RegExp_new := Fragment.compile;
  decodeURIComponent := decodeURI
}.

Definition leb (a b : value) : bool :=
  match a, b with
  | VNum x, VNum y => Z.leb x y
  | VStr x, VStr y => String.leb x y
  | _, _ => true
  end.

#[export] Instance mongo : StoreEngine := {
  regex_match := Fragment.test;
  bson_leb := leb;
  text_match := fun s d =>
    Fragment.found true
      (fold_right (fun c r => Fragment.Cat (Fragment.Chr c) r) Fragment.Eps
                  (list_ascii_of_string s))
      (list_ascii_of_string (ToString (field d "name")));
  new_id := fun st => VStr ("id" +:+ pretty (length st));
  now := fun st => VNum (1000 + Z.of_nat (length st));
  gen_sku := fun d => VStr ("SKU-" +:+ ToString (field d "name"))
}.

Definition shirt : doc :=
  list_to_map
    [("_id", VStr "p1"); ("__v", VNum 0); ("name", VStr "Shirt");
     ("description", VStr "A blue cotton shirt"); ("brand", VStr "Acme");
     ("category", VStr "tops"); ("sku", VStr "S1");
     ("images", VArr [VObj [("url", VStr "u1"); ("publicId", VStr "img1")];
                      VObj [("url", VStr "u2"); ("publicId", VStr "img2")]]);
     ("sizeChart", VObj [("imageUrl", VStr "u3"); ("imagePublicId", VStr "chart1")]);
     ("shippingStructure", VStr "s1"); ("isActive", VBool true);
     ("averageRating", VNum 4); ("reviewCount", VNum 12);
     ("createdAt", VNum 10); ("updatedAt", VNum 20)].

Definition hat : doc :=
  list_to_map
    [("_id", VStr "p2"); ("__v", VNum 0); ("name", VStr "Hat");
     ("description", VStr "A retired hat"); ("brand", VStr "Bolt");
     ("category", VStr "caps"); ("sku", VStr "H1"); ("images", VArr []);
     ("isActive", VBool false); ("averageRating", VNum 3);
     ("reviewCount", VNum 2); ("createdAt", VNum 11); ("updatedAt", VNum 21)].

Definition standard : doc :=
  list_to_map
    [("_id", VStr "s1"); ("name", VStr "Standard"); ("rules", VArr []);
     ("isDefault", VBool true); ("notes", VStr "internal")].

Definition shop : World :=
  mkWorld [shirt; hat] [standard] ["img1"; "img2"; "chart1"] [].

(** A product whose stored image list has a hole, and one with neither
    images nor a size chart. *)
Definition torn : doc :=
  list_to_map
    [("_id", VStr "p3"); ("name", VStr "Scarf");
     ("images", VArr [VObj [("url", VStr "u4"); ("publicId", VStr "img4")];
                      VNull]);
     ("isActive", VBool true)].

Definition bare : doc :=
  list_to_map
    [("_id", VStr "p4"); ("name", VStr "Belt"); ("images", VArr []);
     ("isActive", VBool true)].

(** A product whose size chart image the hosting service no longer
    holds. *)
Definition vest : doc :=
  list_to_map
    [("_id", VStr "p5"); ("name", VStr "Vest"); ("images", VArr []);
     ("sizeChart", VObj [("imageUrl", VStr "u9"); ("imagePublicId", VStr "gone")]);
     ("isActive", VBool true)].

Definition annex : World :=
  mkWorld [torn; bare; vest] [] ["img4"] [].

(** A third product for the shop, and the shop that stocks it. *)
Definition tee : doc :=
  <["_id" := VStr "p6"]>
    (<["name" := VStr "Tee"]> (<["createdAt" := VNum 30]> shirt)).

Definition mall : World :=
  mkWorld [shirt; hat; tee] [standard] ["img1"; "img2"; "chart1"] [].

(** A store that refuses a write, and one that keeps [updatedAt] itself:
    it stamps a document before it stores it. *)
Definition refusing (d : doc) : M doc :=
  fun w => (Rejected (StoreError "write refused"), w).

Definition stamping (d : doc) : M doc :=
  fun w => save (<["updatedAt" := now (products w)]> d) w.

End Sample.


(** * Properties *)

Section Properties.
Context `{Media : MediaCollaborator} `{RT : JSRuntime}
        `{Store : !StoreEngine}.

Implicit Types (w : World) (p d : doc) (id : string).

Lemma value_eqb_VStr (v : value) (s : string) :
  value_eqb v (VStr s) = true -> v = VStr s.
Proof.
  destruct v; simpl; try discriminate.
  intros E. apply String.eqb_eq in E. by subst.
Qed.

Lemma value_eqb_VBool (v : value) (b : bool) :
  value_eqb v (VBool b) = true -> v = VBool b.
Proof.
  destruct v; simpl; try discriminate.
  intros E. apply Bool.eqb_prop in E. by subst.
Qed.

Lemma field_Some p k (v : value) :
  v <> VUndefined -> field p k = v -> p !! k = Some v.
Proof.
  unfold field. destruct (p !! k); simpl; congruence.
Qed.

(** A document found by identifier carries that identifier. *)
Lemma found_has_id w id p :
  List.find (has_id (VStr id)) (products w) = Some p ->
  field p "_id" = VStr id.
Proof.
  intros F. apply List.find_some in F as [_ F].
  by apply value_eqb_VStr.
Qed.

Lemma find_replace_first (f : doc -> bool) d (l : list doc) p :
  List.find f l = Some p -> f d = true ->
  List.find f (replace_first f d l) = Some d.
Proof.
  intros F Fd. induction l as [|x l IH]; simpl in *; [discriminate|].
  destruct (f x) eqn:E; simpl.
  - by rewrite Fd.
  - rewrite E. by apply IH.
Qed.

(** Saving a document that kept its identifier replaces the stored one. *)
Lemma save_found w id p d :
  List.find (has_id (VStr id)) (products w) = Some p ->
  field d "_id" = field p "_id" ->
  exists w',
    save d w = (Resolved d, w') /\
    List.find (has_id (VStr id)) (products w') = Some d /\
    cloud w' = cloud w /\ console w' = console w /\
    products w' = replace_first (has_id (VStr id)) d (products w).
Proof.
  intros F E. pose proof (found_has_id _ _ _ F) as I.
  eexists. split; [reflexivity|]. simpl. rewrite E, I.
  split; [|done]. apply find_replace_first with p; [done|].
  unfold has_id. rewrite E, I. simpl. apply String.eqb_refl.
Qed.

Lemma map_outcome_sound (imgs : list value) :
  forallb (fun img => negb (nullish img)) imgs = true ->
  exists ids, map_outcome publicId_of imgs = Resolved ids.
Proof.
  induction imgs as [|img imgs IH]; simpl; [by eexists|].
  intros [Hn Hs]%andb_prop. destruct (IH Hs) as [ids E]. rewrite E.
  destruct img; simpl in *; try discriminate; by eexists.
Qed.

(** The image block settles as resolved whatever the collaborator does:
    a rejection ends in the console. *)
Lemma cleanup_images_resolved w p :
  images_sound p = true ->
  exists v w',
    cleanup_images p w = (Resolved v, w') /\
    products w' = products w /\
    (exists log, console w' = (console w ++ log)%list /\
       forall ids e c,
         images_of p <> [] ->
         map_outcome publicId_of (images_of p) = Resolved ids ->
         deleteMultipleImages ids (cloud w) = (Rejected e, c) ->
         log = [("Error deleting product images:", e)]).
Proof.
  unfold images_sound, cleanup_images. intros S.
  destruct (images_of p) as [|img imgs] eqn:E.
  - exists VUndefined, w. repeat split. exists []. split.
    + by rewrite app_nil_r.
    + intros ? ? ? N. by destruct N.
  - destruct (map_outcome_sound _ S) as [ids I].
    unfold bind, settle, catch, media, console_error. rewrite I.
    destruct (deleteMultipleImages ids (cloud w)) as [[v|e] c] eqn:D.
    + eexists _, _. split; [reflexivity|]. split; [done|]. simpl.
      exists []. split; [by rewrite app_nil_r|]. intros ? ? ? _ [= <-].
      rewrite D. discriminate.
    + eexists _, _. split; [reflexivity|]. split; [done|]. simpl.
      eexists. split; [reflexivity|]. intros ? ? ? _ [= <-].
      rewrite D. by intros [= <- _].
Qed.

(** So does the size chart block. *)
Lemma cleanup_sizeChart_resolved w p :
  exists v w',
    cleanup_sizeChart p w = (Resolved v, w') /\
    products w' = products w /\
    (exists log, console w' = (console w ++ log)%list /\
       forall e c,
         truthy (field p "sizeChart")
           && truthy (prop (field p "sizeChart") "imagePublicId") = true ->
         deleteCloudinaryImage (prop (field p "sizeChart") "imagePublicId")
                               (cloud w) = (Rejected e, c) ->
         log = [("Error deleting size chart image:", e)]).
Proof.
  unfold cleanup_sizeChart.
  destruct (truthy (field p "sizeChart")
            && truthy (prop (field p "sizeChart") "imagePublicId")) eqn:T.
  - unfold catch, media, console_error.
    destruct (deleteCloudinaryImage _ (cloud w)) as [[v|e] c] eqn:D.
    + eexists _, _. split; [reflexivity|]. split; [done|]. simpl.
      exists []. split; [by rewrite app_nil_r|]. intros ? ? _. discriminate.
    + eexists _, _. split; [reflexivity|]. split; [done|]. simpl.
      eexists. split; [reflexivity|]. by intros ? ? _ [= <- _].
  - exists VUndefined, w. repeat split. exists []. split.
    + by rewrite app_nil_r.
    + intros ? ? ?. discriminate.
Qed.

Lemma field_insert_ne p (k k' : string) (v : value) :
  k <> k' -> field (<[k := v]> p) k' = field p k'.
Proof. intros N. unfold field. by rewrite lookup_insert_ne. Qed.

Lemma images_of_insert_ne p (k : string) (v : value) :
  k <> "images" -> images_of (<[k := v]> p) = images_of p.
Proof. intros N. unfold images_of. by rewrite lookup_insert_ne. Qed.

(** The delete handler on an identifier that resolves. *)
Lemma deleteProduct_found w id p :
  List.find (has_id (VStr id)) (products w) = Some p ->
  images_sound p = true ->
  exists w',
    deleteProduct id w
      = (Send 200 (done_with "Product deleted successfully" None), w') /\
    List.find (has_id (VStr id)) (products w')
      = Some (<["isActive" := VBool false]> p) /\
    products w'
      = replace_first (has_id (VStr id)) (<["isActive" := VBool false]> p)
          (products w) /\
    (forall ids e c,
        images_of p <> [] ->
        map_outcome publicId_of (images_of p) = Resolved ids ->
        deleteMultipleImages ids (cloud w) = (Rejected e, c) ->
        In ("Error deleting product images:", e) (console w')) /\
    (forall e c,
        truthy (field p "sizeChart")
          && truthy (prop (field p "sizeChart") "imagePublicId") = true ->
        deleteCloudinaryImage (prop (field p "sizeChart") "imagePublicId")
                              (cloud (snd (cleanup_images p w)))
          = (Rejected e, c) ->
        In ("Error deleting size chart image:", e) (console w')).
Proof.
  intros F S.
  destruct (cleanup_images_resolved w p S)
    as (v1 & w1 & E1 & P1 & log1 & C1 & L1).
  destruct (cleanup_sizeChart_resolved w1 p)
    as (v2 & w2 & E2 & P2 & log2 & C2 & L2).
  destruct (save_found w2 id p (<["isActive" := VBool false]> p))
    as (w' & Es & Fs & _ & Cs & Ps).
  { by rewrite P2, P1. }
  { by apply field_insert_ne. }
  exists w'. split; [|split; [done|split; [by rewrite Ps, P2, P1|split]]].
  - unfold deleteProduct, deleteProduct_on, handler, bind, findById, ret.
    rewrite F, E1, E2. by rewrite Es.
  - intros ids e c N I D. rewrite Cs, C2, C1.
    rewrite (L1 ids e c N I D). apply in_or_app. left. apply in_or_app.
    right. by left.
  - intros e c T D. rewrite E1 in D. simpl in D. rewrite Cs, C2.
    rewrite (L2 e c T D). apply in_or_app. right. by left.
Qed.

Lemma replace_first_same (f : doc -> bool) d (l : list doc) :
  List.find f l = Some d -> replace_first f d l = l.
Proof.
  induction l as [|x l IH]; simpl; [discriminate|].
  destruct (f x); [by intros [= ->]|]. intros F. by rewrite IH.
Qed.

(** The four handlers that look a product up by identifier answer 404 when
    there is none. *)
Lemma absent_is_404 w id :
  List.find (has_id (VStr id)) (products w) = None ->
  getProduct id w = (Send 404 (failure "Product not found"), w) /\
  (forall body,
      updateProduct id body w = (Send 404 (failure "Product not found"), w)) /\
  deleteProduct id w = (Send 404 (failure "Product not found"), w) /\
  duplicateProduct id w = (Send 404 (failure "Product not found"), w).
Proof.
  intros F. repeat split; intros;
    unfold getProduct, updateProduct, updateProduct_on, deleteProduct,
      deleteProduct_on, duplicateProduct, handler, bind, populated,
      findById, ret;
    by rewrite F.
Qed.

(** *** Update *)

Lemma elem_of_Object_keys (o : doc) (k : string) :
  k ∈ Object_keys o <-> is_Some (o !! k).
Proof.
  unfold Object_keys. split.
  - intros ([k' v] & -> & I)%list_elem_of_fmap. simpl.
    apply elem_of_map_to_list in I. by exists v.
  - intros [v I]. apply list_elem_of_fmap. exists (k, v). split; [done|].
    by apply elem_of_map_to_list.
Qed.

Lemma overwrite_fold (body : doc) (keys : list string) p (k : string) :
  fold_left
    (fun product key =>
       if negb (includes immutableFields key)
       then if String.eqb key "__proto__" then product
            else <[key := field body key]> product
       else product) keys p !! k
  = if kept k then p !! k
    else if bool_decide (k ∈ keys) then Some (field body k)
    else p !! k.
Proof.
  unfold kept. revert p. induction keys as [|x keys IH]; intros p; simpl.
  { by destruct (includes immutableFields k || String.eqb k "__proto__"). }
  rewrite IH.
  destruct (includes immutableFields k || String.eqb k "__proto__") eqn:Ik.
  - destruct (includes immutableFields x) eqn:Ix; simpl; [done|].
    destruct (String.eqb x "__proto__") eqn:Px; [done|].
    apply lookup_insert_ne. intros ->. by rewrite Ix, Px in Ik.
  - destruct (decide (k ∈ keys)) as [I|N].
    + rewrite !bool_decide_eq_true_2; [done| |done]. by right.
    + rewrite (bool_decide_eq_false_2 _ N).
      apply orb_false_elim in Ik as [Ik Pk].
      destruct (decide (k = x)) as [->|Nx].
      * rewrite bool_decide_eq_true_2 by left. rewrite Ik, Pk. simpl.
        apply lookup_insert_eq.
      * rewrite bool_decide_eq_false_2.
        2:{ intros [?|?]%elem_of_cons; done. }
        destruct (includes immutableFields x); simpl; [done|].
        destruct (String.eqb x "__proto__"); [done|].
        by apply lookup_insert_ne.
Qed.

(** What the loop over the body leaves in each field. *)
Lemma overwrite_lookup (body : doc) p (k : string) :
  overwrite body p !! k
  = if kept k then p !! k
    else match body !! k with
         | Some v => Some v
         | None => p !! k
         end.
Proof.
  unfold overwrite. rewrite overwrite_fold.
  destruct (kept k); [done|].
  destruct (body !! k) as [v|] eqn:B.
  - rewrite bool_decide_eq_true_2.
    + unfold field. by rewrite B.
    + apply elem_of_Object_keys. by exists v.
  - rewrite bool_decide_eq_false_2; [done|].
    intros [v I]%elem_of_Object_keys. congruence.
Qed.

Lemma kept_immutable (k : string) :
  includes immutableFields k = true -> kept k = true.
Proof. unfold kept. by intros ->. Qed.

Lemma kept_other (k : string) :
  includes immutableFields k = false -> k <> "__proto__" -> kept k = false.
Proof.
  unfold kept. intros -> N. simpl. by apply String.eqb_neq.
Qed.

Lemma overwrite_id (body : doc) p : field (overwrite body p) "_id" = field p "_id".
Proof. unfold field. by rewrite overwrite_lookup. Qed.

(** A body that holds nothing but skipped keys leaves [save] in place. *)
Lemma immutable_only_keeps_save (body : doc) :
  (forall k, is_Some (body !! k) -> includes immutableFields k = true) ->
  loses_save body = false.
Proof.
  intros Only. unfold loses_save.
  destruct (body !! "save") as [v|] eqn:S.
  { assert (includes immutableFields "save" = true) as H
      by (apply Only; by eexists).
    vm_compute in H. discriminate H. }
  destruct (body !! "__proto__") as [v|] eqn:P; [|done].
  assert (includes immutableFields "__proto__" = true) as H
    by (apply Only; by eexists).
  vm_compute in H. discriminate H.
Qed.

(** The update handler on an identifier that resolves, for any behaviour
    of [save]. *)
Lemma updateProduct_on_found (persist : doc -> M doc) w id (body : doc) p :
  List.find (has_id (VStr id)) (products w) = Some p ->
  updateProduct_on persist id body w
  = if loses_save body
    then (Next (TypeError "product.save is not a function"), w)
    else match persist (overwrite body p) w with
         | (Resolved d, w') =>
             (Send 200 (done_with "Product updated successfully"
                          (Some (OneProduct d))), w')
         | (Rejected e, w') => (Next e, w')
         end.
Proof.
  intros F. unfold updateProduct_on, handler, bind, findById, settle, ret.
  rewrite F. destruct (loses_save body); [done|].
  by destruct (persist (overwrite body p) w) as [[d|e] w'].
Qed.

(** The delete handler on an identifier that resolves, for any behaviour
    of [save]. *)
Lemma deleteProduct_on_found (persist : doc -> M doc) w id p v1 w1 v2 w2 :
  List.find (has_id (VStr id)) (products w) = Some p ->
  cleanup_images p w = (Resolved v1, w1) ->
  cleanup_sizeChart p w1 = (Resolved v2, w2) ->
  deleteProduct_on persist id w
  = match persist (<["isActive" := VBool false]> p) w2 with
    | (Resolved _, w3) =>
        (Send 200 (done_with "Product deleted successfully" None), w3)
    | (Rejected e, w3) => (Next e, w3)
    end.
Proof.
  intros F E1 E2. unfold deleteProduct_on, handler, bind, findById, ret.
  rewrite F, E1, E2.
  by destruct (persist (<["isActive" := VBool false]> p) w2) as [[d|e] w3].
Qed.

(** *** Duplicate *)

Lemma includes_false_cons (x : string) (l : list string) (k : string) :
  includes (x :: l) k = false -> k <> x /\ includes l k = false.
Proof.
  unfold includes. simpl. intros [E ?]%orb_false_elim.
  split; [|done]. by apply String.eqb_neq.
Qed.

Ltac distinct_keys H :=
  repeat (apply includes_false_cons in H as [? H]).

Lemma assign_other (st : list doc) (data : doc) (k : string) :
  includes ["_id"; "__v"; "createdAt"; "updatedAt"; "sku"] k = false ->
  assign st data !! k = data !! k.
Proof.
  intros H. distinct_keys H. unfold assign.
  rewrite !lookup_insert_ne by done.
  destruct (truthy (field data "sku")); [done|].
  by rewrite lookup_insert_ne.
Qed.

Lemma copy_of_other p (k : string) :
  includes ["_id"; "__v"; "createdAt"; "updatedAt"; "name"; "sku";
            "averageRating"; "reviewCount"] k = false ->
  copy_of p !! k = p !! k.
Proof.
  intros H. distinct_keys H. unfold copy_of.
  rewrite !lookup_insert_ne by done. by rewrite !lookup_delete_ne.
Qed.

Lemma copy_of_name p :
  copy_of p !! "name" = Some (VStr (ToString (field p "name") +:+ " (Copy)")).
Proof.
  unfold copy_of. rewrite !lookup_insert_ne by done.
  rewrite lookup_insert_eq. unfold field. by rewrite !lookup_delete_ne.
Qed.

Lemma duplicateProduct_found w id p :
  List.find (has_id (VStr id)) (products w) = Some p ->
  duplicateProduct id w
  = (Send 201 (done_with "Product duplicated successfully"
                 (Some (OneProduct (assign (products w) (copy_of p))))),
     mkWorld (products w ++ [assign (products w) (copy_of p)])
             (shippingStructures w) (cloud w) (console w)).
Proof.
  intros F. unfold duplicateProduct, handler, bind, findById, create, ret.
  by rewrite F.
Qed.

(** *** Queries *)

Lemma insert_by_perm (le : doc -> doc -> bool) (x : doc) (l : list doc) :
  insert_by le x l ≡ₚ x :: l.
Proof.
  induction l as [|y l IH]; simpl; [done|].
  destruct (le x y); [done|]. rewrite IH. apply Permutation_swap.
Qed.

Lemma isort_perm (le : doc -> doc -> bool) (l : list doc) : isort le l ≡ₚ l.
Proof.
  unfold isort. induction l as [|x l IH]; simpl; [done|].
  by rewrite insert_by_perm, IH.
Qed.

(** Sorting rearranges the documents and nothing else. *)
Lemma order_by_perm (s : string) (l : list doc) : order_by s l ≡ₚ l.
Proof.
  unfold order_by. induction (sort_keys s) as [|key keys IH]; simpl; [done|].
  by rewrite isort_perm.
Qed.

Lemma window_resolved (lim skp : option Z) (l page : list doc) :
  window lim skp l = Resolved page ->
  page ⊆ l /\
  (forall n, lim = Some n -> n <> 0 -> Z.of_nat (length page) <= Z.abs n).
Proof.
  unfold window. destruct (Z.ltb (default 0 skp) 0); [discriminate|].
  intros [= <-]. split.
  - destruct lim as [n|]; [destruct (Z.eqb n 0)|]; try apply subseteq_drop.
    etrans; [apply subseteq_take|apply subseteq_drop].
  - intros n -> N. rewrite (proj2 (Z.eqb_neq n 0) N).
    rewrite length_take. lia.
Qed.

Lemma populate_one_other (ships : list doc) d (k : string) :
  k <> "shippingStructure" -> populate_one ships d !! k = d !! k.
Proof.
  intros N. unfold populate_one.
  destruct (d !! "shippingStructure") as [ref|]; [|done].
  destruct (truthy ref); [|done]. by rewrite lookup_insert_ne.
Qed.

(** What awaiting a query resolves to. *)
Lemma exec_resolved (qy : query) w (page : list doc) w' :
  exec qy w = (Resolved page, w') ->
  w' = w /\
  (forall n, q_limit qy = Some n -> n <> 0 ->
             Z.of_nat (length page) <= Z.abs n) /\
  (forall d, d ∈ page ->
     exists x, x ∈ products w /\ matches (q_filter qy) x = true /\
               d = if q_populate qy
                   then populate_one (shippingStructures w) x else x).
Proof.
  unfold exec.
  destruct (window _ _ _) as [pg|e] eqn:W; [|discriminate].
  intros [= <- <-]. apply window_resolved in W as [Sub Len].
  split; [done|]. split.
  - intros n L N. destruct (q_populate qy); [rewrite length_map|]; eauto.
  - assert (forall x, x ∈ pg ->
              x ∈ products w /\ matches (q_filter qy) x = true) as In_pg.
    { intros x I%Sub.
      assert (x ∈ List.filter (matches (q_filter qy)) (products w)) as I'.
      { destruct (q_sort qy); [by rewrite order_by_perm in I|done]. }
      apply list_elem_of_In, List.filter_In in I' as [? ?].
      split; [by apply list_elem_of_In|done]. }
    intros d I. destruct (q_populate qy).
    + apply list_elem_of_fmap in I as (x & -> & I).
      exists x. destruct (In_pg x I). eauto.
    + exists d. destruct (In_pg d I). eauto.
Qed.

Lemma matches_selected (search category : option string)
    (re : option RegExp) d :
  matches
    (let query := [FieldIs "isActive" (VBool true)] in
     let query := match search with
                  | Some s => (query ++ [TextSearch s])%list
                  | None => query
                  end in
     let query := match category with
                  | Some c => (query ++ [FieldIs "category" (VStr c)])%list
                  | None => query
                  end in
     match re with
     | Some r => (query ++ [FieldLike "brand" r])%list
     | None => query
     end) d
  = selected search category re d.
Proof.
  unfold selected, active.
  destruct search, category, re; simpl;
    rewrite ?andb_true_r, ?andb_assoc; reflexivity.
Qed.

(** Every response of the List handler. *)
Lemma getAllProducts_sent (req : list_request) w st (b : envelope) :
  fst (getAllProducts req w) = Send st b ->
  exists (re : option RegExp) (page : list doc),
    brand_filter (rq_brand req) re /\
    st = 200 /\
    b = mkEnvelope true None (Some (Z.of_nat (length page)))
          (Some (Z.of_nat (length (List.filter
             (selected (supplied (rq_search req))
                       (supplied (rq_category req)) re) (products w)))))
          (Some (ceil_div
             (Z.of_nat (length (List.filter
                (selected (supplied (rq_search req))
                          (supplied (rq_category req)) re) (products w))))
             (default 10 (rq_limit req))))
          (Some (default 1 (rq_page req)))
          (Some (ManyProducts page)) /\
    (forall d, d ∈ page ->
       exists x, x ∈ products w /\
         selected (supplied (rq_search req)) (supplied (rq_category req))
                  re x = true /\
         d = populate_one (shippingStructures w) x).
Proof.
  unfold getAllProducts, handler, bind, brand_filter.
  destruct (supplied (rq_brand req)) as [s|].
  - unfold settle. destruct (RegExp_new s "i") as [r|e]; [|discriminate].
    unfold ret at 1.
    destruct (exec _ w) as [[page|e] w'] eqn:E; [|discriminate].
    apply exec_resolved in E as (-> & _ & In_page). simpl.
    intros [= <- <-]. exists (Some r), page. split; [eauto|]. split; [done|].
    split.
    + do 2 f_equal;
        rewrite (List.filter_ext _ _
                   (matches_selected (supplied (rq_search req))
                      (supplied (rq_category req)) (Some r))); reflexivity.
    + intros d (x & ? & Mx & ->)%In_page. exists x. split; [done|].
      split; [|done].
      by rewrite <- (matches_selected (supplied (rq_search req))
                       (supplied (rq_category req)) (Some r)).
  - unfold ret at 1.
    destruct (exec _ w) as [[page|e] w'] eqn:E; [|discriminate].
    apply exec_resolved in E as (-> & _ & In_page). simpl.
    intros [= <- <-]. exists None, page. split; [done|]. split; [done|].
    split.
    + do 2 f_equal;
        rewrite (List.filter_ext _ _
                   (matches_selected (supplied (rq_search req))
                      (supplied (rq_category req)) None)); reflexivity.
    + intros d (x & ? & Mx & ->)%In_page. exists x. split; [done|].
      split; [|done].
      by rewrite <- (matches_selected (supplied (rq_search req))
                       (supplied (rq_category req)) None).
Qed.

Lemma matches_hit (r : RegExp) d :
  matches [AnyOf [FieldLike "name" r; FieldLike "brand" r;
                  FieldLike "description" r];
           FieldIs "isActive" (VBool true)] d
  = hit r d.
Proof.
  unfold hit, active. simpl.
  by rewrite orb_false_r, andb_true_r, orb_assoc.
Qed.

(** Every response of the Search handler. *)
Lemma searchProducts_sent (q : option string) w st (b : envelope) :
  fst (searchProducts q w) = Send st b ->
  (supplied q = None /\ st = 400 /\ b = failure "Search query is required")
  \/
  (exists s r (page : list doc),
      supplied q = Some s /\ RegExp_new s "i" = Resolved r /\ st = 200 /\
      b = mkEnvelope true None (Some (Z.of_nat (length page))) None None None
            (Some (ManyProducts page)) /\
      Z.of_nat (length page) <= 20 /\
      forall d, d ∈ page -> d ∈ products w /\ hit r d = true).
Proof.
  unfold searchProducts, handler, bind.
  destruct (supplied q) as [s|]; [|intros [= <- <-]; by left].
  unfold settle. destruct (RegExp_new s "i") as [r|e] eqn:C; [|discriminate].
  destruct (exec _ w) as [[page|e] w'] eqn:E; [|discriminate].
  apply exec_resolved in E as (-> & Len & In_page). simpl.
  intros [= <- <-]. right. exists s, r, page.
  do 4 (split; [done|]). split.
  - by apply (Len 20).
  - intros d (x & ? & Mx & ->)%In_page. simpl. split; [done|].
    by rewrite <- matches_hit.
Qed.

(** Search answers whenever the term compiles. *)
Lemma searchProducts_compiled (s : string) (r : RegExp) w :
  s <> "" -> RegExp_new s "i" = Resolved r ->
  exists page,
    searchProducts (Some s) w
    = (Send 200 (mkEnvelope true None (Some (Z.of_nat (length page))) None
                   None None (Some (ManyProducts page))), w) /\
    forall d, d ∈ products w -> hit r d = true ->
              (length (products w) <= 20)%nat -> d ∈ page.
Proof.
  intros N C. unfold searchProducts, handler, bind, settle. simpl.
  apply String.eqb_neq in N. rewrite N, C.
  unfold exec, window. simpl. eexists. split; [reflexivity|].
  intros d I Hd L.
  rewrite take_ge.
  - apply list_elem_of_In, List.filter_In. split; [by apply list_elem_of_In|].
    by rewrite matches_hit.
  - etrans; [apply List.filter_length_le|]. simpl. lia.
Qed.

Lemma getProduct_found w id p :
  List.find (has_id (VStr id)) (products w) = Some p ->
  getProduct id w
  = (Send 200 (mkEnvelope true None None None None None
                 (Some (OneProduct (populate_one (shippingStructures w) p)))),
     w).
Proof.
  intros F. unfold getProduct, handler, bind, populated, findById, ret.
  by rewrite F.
Qed.

Lemma active_true d : active d = true -> d !! "isActive" = Some (VBool true).
Proof.
  unfold active. intros E%value_eqb_VBool. by apply field_Some.
Qed.




(** The status of every successful response. *)
Lemma success_status (r : request) w st (b : envelope) :
  fst (router r w) = Send st b -> success b = true -> st = status_sent r.
Proof.
  destruct r; simpl.
  - by intros (? & ? & _ & -> & _)%getAllProducts_sent.
  - intros [(_ & _ & ->)|(? & ? & ? & _ & _ & -> & _)]%searchProducts_sent;
      [discriminate|done].
  - unfold getProduct, handler, bind, populated, findById, ret.
    repeat case_match; simpl; intros; simplify_eq; done.
  - unfold createProduct, handler, bind, create, ret.
    simpl; intros; simplify_eq; done.
  - unfold duplicateProduct, handler, bind, findById, create, ret.
    repeat case_match; simpl; intros; simplify_eq; done.
  - unfold updateProduct, updateProduct_on, handler, bind, findById, save,
      settle, ret.
    repeat case_match; simpl; intros; simplify_eq; done.
  - unfold deleteProduct, deleteProduct_on, handler, bind, findById, save,
      ret.
    repeat case_match; simpl; intros; simplify_eq; done.
  - unfold uploadImages, handler, bind, media, ret.
    repeat case_match; simpl; intros; simplify_eq; done.
  - unfold deleteImage, handler, bind, media, settle, ret.
    repeat case_match; simpl; intros; simplify_eq; done.
  - unfold uploadSizeChart, handler, bind, media, ret.
    repeat case_match; simpl; intros; simplify_eq; done.
Qed.

(** ** The claims *)

(** C1, as amended.  Soft delete of a product that resolves to a record
    whose [images] hold no [null] or [undefined] entry, for any behaviour
    of the store's write.  Whatever the media collaborator does in the two
    cleanup calls, resolving or rejecting, both blocks settle as resolved
    and leave the collection alone, and every rejection of a cleanup call
    is in the console log; the handler then hands the store the record
    with [isActive = false], every other field as found, and answers 200
    with success when the store resolves; only a rejection of that write
    reaches [next]. *)
Theorem delete_survives_media_failures (persist : doc -> M doc) w id p :
  List.find (has_id (VStr id)) (products w) = Some p ->
  images_sound p = true ->
  let inactive := <["isActive" := VBool false]> p in
  exists v1 w1 v2 w2,
    cleanup_images p w = (Resolved v1, w1) /\
    cleanup_sizeChart p w1 = (Resolved v2, w2) /\
    products w2 = products w /\
    (forall ids e c,
        images_of p <> [] ->
        map_outcome publicId_of (images_of p) = Resolved ids ->
        deleteMultipleImages ids (cloud w) = (Rejected e, c) ->
        In ("Error deleting product images:", e) (console w2)) /\
    (forall e c,
        truthy (field p "sizeChart")
          && truthy (prop (field p "sizeChart") "imagePublicId") = true ->
        deleteCloudinaryImage (prop (field p "sizeChart") "imagePublicId")
                              (cloud w1)
          = (Rejected e, c) ->
        In ("Error deleting size chart image:", e) (console w2)) /\
    inactive !! "isActive" = Some (VBool false) /\
    (forall k, k <> "isActive" -> inactive !! k = p !! k) /\
    (forall d w3,
        persist inactive w2 = (Resolved d, w3) ->
        deleteProduct_on persist id w
          = (Send 200 (done_with "Product deleted successfully" None), w3)) /\
    (forall e w3,
        persist inactive w2 = (Rejected e, w3) ->
        deleteProduct_on persist id w = (Next e, w3)).
Proof.
  intros F S inactive. subst inactive.
  destruct (cleanup_images_resolved w p S)
    as (v1 & w1 & E1 & P1 & log1 & C1 & L1).
  destruct (cleanup_sizeChart_resolved w1 p)
    as (v2 & w2 & E2 & P2 & log2 & C2 & L2).
  exists v1, w1, v2, w2. do 2 (split; [done|]).
  split; [by rewrite P2, P1|]. split.
  { intros ids e c N I D. rewrite C2, C1, (L1 ids e c N I D).
    apply in_or_app. left. apply in_or_app. right. by left. }
  split.
  { intros e c T D. rewrite C2, (L2 e c T D).
    apply in_or_app. right. by left. }
  split; [apply lookup_insert_eq|].
  split; [intros k N; by apply lookup_insert_ne|].
  split.
  - intros d w3 E.
    by rewrite (deleteProduct_on_found persist w id p v1 w1 v2 w2 F E1 E2), E.
  - intros e w3 E.
    by rewrite (deleteProduct_on_found persist w id p v1 w1 v2 w2 F E1 E2), E.
Qed.

(** C2, as amended.  Update of an existing product, for any behaviour of
    the store's write.  The record the handler hands to the store has the
    found record's [_id], [__v], [createdAt] and [updatedAt] whatever the
    request body holds under those keys, every other key of the body
    except [__proto__] overwrites the field of that name, and a field the
    body does not name stays as found.  When the body has no key [save]
    and no object, array or [null] under [__proto__], the handler answers
    200 with the record as the store's write resolved it, or forwards the
    rejection of that write to [next]; otherwise the document has lost its
    [save] method, the handler ends in [next] with a [TypeError] and the
    store is not written to. *)
Theorem update_keeps_immutable (persist : doc -> M doc) w id (body : doc) p :
  List.find (has_id (VStr id)) (products w) = Some p ->
  let handed := overwrite body p in
  handed !! "_id" = p !! "_id" /\
  handed !! "__v" = p !! "__v" /\
  handed !! "createdAt" = p !! "createdAt" /\
  handed !! "updatedAt" = p !! "updatedAt" /\
  (forall k v,
      includes immutableFields k = false -> k <> "__proto__" ->
      body !! k = Some v -> handed !! k = Some v) /\
  (forall k, body !! k = None -> handed !! k = p !! k) /\
  (loses_save body = false ->
   (forall d w',
       persist handed w = (Resolved d, w') ->
       updateProduct_on persist id body w
         = (Send 200 (done_with "Product updated successfully"
                        (Some (OneProduct d))), w')) /\
   (forall e w',
       persist handed w = (Rejected e, w') ->
       updateProduct_on persist id body w = (Next e, w'))) /\
  (loses_save body = true ->
   exists msg, updateProduct_on persist id body w = (Next (TypeError msg), w)).
Proof.
  intros F handed. subst handed.
  do 4 (split; [by rewrite overwrite_lookup|]). split.
  { intros k v I N B. by rewrite overwrite_lookup, kept_other, B. }
  split.
  { intros k B. rewrite overwrite_lookup, B. by destruct (kept k). }
  rewrite (updateProduct_on_found persist w id body p F). split.
  - intros ->. split; [intros d w' ->|intros e w' ->]; done.
  - intros ->. by eexists.
Qed.

(** C3. Duplicate of an existing product creates a record whose name is
    the source name followed by " (Copy)", whose sku is cleared in the data
    handed to the store (which then generates one), whose [averageRating]
    and [reviewCount] are zero, and whose every other field, [isActive]
    included, equals the source's; the source's [_id], [__v], [createdAt]
    and [updatedAt] are not in the copied data, the store assigns new
    ones. *)
Theorem duplicate_copies w id p :
  List.find (has_id (VStr id)) (products w) = Some p ->
  exists d w',
    duplicateProduct id w
      = (Send 201 (done_with "Product duplicated successfully"
                     (Some (OneProduct d))), w') /\
    products w' = (products w ++ [d])%list /\
    d !! "name" = Some (VStr (ToString (field p "name") +:+ " (Copy)")) /\
    (forall s, p !! "name" = Some (VStr s) ->
               d !! "name" = Some (VStr (s +:+ " (Copy)"))) /\
    copy_of p !! "sku" = Some VNull /\
    d !! "sku" = Some (gen_sku (copy_of p)) /\
    d !! "averageRating" = Some (VNum 0) /\
    d !! "reviewCount" = Some (VNum 0) /\
    d !! "isActive" = p !! "isActive" /\
    (forall k,
        includes ["_id"; "__v"; "createdAt"; "updatedAt"; "name"; "sku";
                  "averageRating"; "reviewCount"] k = false ->
        d !! k = p !! k) /\
    (forall k, includes immutableFields k = true -> copy_of p !! k = None) /\
    d !! "_id" = Some (new_id (products w)) /\
    d !! "__v" = Some (VNum 0) /\
    d !! "createdAt" = Some (now (products w)) /\
    d !! "updatedAt" = Some (now (products w)).
Proof.
  intros F. eexists _, _. split; [by apply duplicateProduct_found|].
  split; [done|].
  assert (copy_of p !! "sku" = Some VNull) as Sku.
  { unfold copy_of. rewrite !lookup_insert_ne by done.
    by rewrite lookup_insert_eq. }
  assert (forall k,
            includes ["_id"; "__v"; "createdAt"; "updatedAt"; "name"; "sku";
                      "averageRating"; "reviewCount"] k = false ->
            assign (products w) (copy_of p) !! k = p !! k) as Other.
  { intros k H. rewrite assign_other, copy_of_other; [done..|].
    distinct_keys H. unfold includes. simpl.
    by rewrite !(proj2 (String.eqb_neq _ _)). }
  split; [by rewrite assign_other, copy_of_name|]. split.
  { intros s N. rewrite assign_other, copy_of_name by done.
    unfold field. by rewrite N. }
  split; [done|]. split.
  { unfold assign, field. rewrite Sku. simpl.
    rewrite !lookup_insert_ne by done. by rewrite lookup_insert_eq. }
  split.
  { rewrite assign_other by done. unfold copy_of.
    rewrite !lookup_insert_ne by done. by rewrite lookup_insert_eq. }
  split.
  { rewrite assign_other by done. unfold copy_of.
    by rewrite lookup_insert_eq. }
  split; [by apply Other|]. split; [done|]. split.
  { intros k I. unfold includes, immutableFields in I. simpl in I.
    unfold copy_of. rewrite !orb_true_iff in I.
    destruct I as [I|[I|[I|[I|I]]]]; [..|done];
      apply String.eqb_eq in I as ->;
      rewrite !lookup_insert_ne by done;
      rewrite ?lookup_delete_eq, ?(lookup_delete_ne _ "updatedAt"),
        ?lookup_delete_eq, ?(lookup_delete_ne _ "createdAt"),
        ?lookup_delete_eq, ?(lookup_delete_ne _ "__v"),
        ?lookup_delete_eq by done; done. }
  unfold assign. split; [by rewrite lookup_insert_eq|].
  split; [rewrite lookup_insert_ne by done; by rewrite lookup_insert_eq|].
  split; [rewrite !lookup_insert_ne by done; by rewrite lookup_insert_eq|].
  rewrite !lookup_insert_ne by done. by rewrite lookup_insert_eq.
Qed.

(** C4. Whatever the store holds, every record in a List response and in a
    Search response has [isActive = true], so a record with
    [isActive = false] is in neither; Get-by-id answers 200 with the record
    of an existing id whatever its [isActive], changing at most the
    resolved [shippingStructure]. *)
Theorem inactive_hidden_but_gettable w :
  (forall req st b page d,
      fst (getAllProducts req w) = Send st b ->
      data b = Some (ManyProducts page) -> d ∈ page ->
      d !! "isActive" = Some (VBool true)) /\
  (forall q st b page d,
      fst (searchProducts q w) = Send st b ->
      data b = Some (ManyProducts page) -> d ∈ page ->
      d !! "isActive" = Some (VBool true)) /\
  (forall id p,
      List.find (has_id (VStr id)) (products w) = Some p ->
      exists p',
        getProduct id w
          = (Send 200 (mkEnvelope true None None None None None
                         (Some (OneProduct p'))), w) /\
        p' !! "isActive" = p !! "isActive" /\
        forall k, k <> "shippingStructure" -> p' !! k = p !! k).
Proof.
  split; [|split].
  - intros req st b page d (re & pg & _ & _ & -> & In_pg)%getAllProducts_sent.
    simpl. intros [= <-] (x & _ & Sel & ->)%In_pg.
    rewrite populate_one_other by done. apply active_true.
    unfold selected in Sel. by repeat apply andb_prop in Sel as [Sel _].
  - intros q st b page d
      [(_ & _ & ->)|(s & r & pg & _ & _ & _ & -> & _ & In_pg)]%searchProducts_sent;
      [discriminate|].
    simpl. intros [= <-] [_ Hit]%In_pg. apply active_true.
    unfold hit in Hit. by apply andb_prop in Hit as [_ Hit].
  - intros id p F. eexists. split; [by apply getProduct_found|].
    split; [by apply populate_one_other|]. intros k N.
    by apply populate_one_other.
Qed.

(** C5. When the id resolves to no record, Get-by-id, Update, Delete and
    Duplicate each answer 404 with [success = false]; none of them ends in
    [next(error)], and the world is left as it was. *)
Theorem unknown_id_not_found w id :
  List.find (has_id (VStr id)) (products w) = None ->
  let not_found := Send 404 (failure "Product not found") in
  success (failure "Product not found") = false /\
  getProduct id w = (not_found, w) /\
  (forall body, updateProduct id body w = (not_found, w)) /\
  deleteProduct id w = (not_found, w) /\
  duplicateProduct id w = (not_found, w).
Proof.
  intros F. split; [done|]. by apply absent_is_404.
Qed.

(** C6, as amended.  Delete twice on an existing product whose [images]
    hold no [null] or [undefined] entry: both calls answer 200 with
    success, the stored record has [isActive = false] after the first call
    and after the second, and the second call leaves the collection as the
    first left it; this holds for every media collaborator, hence also
    when the second cleanup is rejected because the images are gone. *)
Theorem delete_twice w id p :
  List.find (has_id (VStr id)) (products w) = Some p ->
  images_sound p = true ->
  exists w1 w2 p',
    deleteProduct id w
      = (Send 200 (done_with "Product deleted successfully" None), w1) /\
    deleteProduct id w1
      = (Send 200 (done_with "Product deleted successfully" None), w2) /\
    p' !! "isActive" = Some (VBool false) /\
    List.find (has_id (VStr id)) (products w1) = Some p' /\
    List.find (has_id (VStr id)) (products w2) = Some p' /\
    products w2 = products w1.
Proof.
  intros F S.
  destruct (deleteProduct_found w id p F S) as (w1 & E1 & F1 & _).
  assert (images_sound (<["isActive" := VBool false]> p) = true) as S1.
  { unfold images_sound. by rewrite images_of_insert_ne. }
  destruct (deleteProduct_found w1 id _ F1 S1) as (w2 & E2 & F2 & P2 & _).
  rewrite insert_insert_eq in F2, P2.
  exists w1, w2, (<["isActive" := VBool false]> p).
  do 2 (split; [done|]). split; [apply lookup_insert_eq|].
  do 2 (split; [done|]). rewrite P2. by apply replace_first_same.
Qed.

(** C7. Search answers 400 when [q] is missing or empty.  For a non-empty
    [q], a response lists at most 20 products, each a stored product on
    which the expression compiled from [q] with the [i] flag matches
    [name], [brand] or [description]; and Search does respond whenever
    that expression compiles, with every stored product that matches in
    the page when the store holds at most 20 products. *)
Theorem search_contract (q : option string) w :
  match supplied q with
  | None =>
      (q = None \/ q = Some "") /\
      searchProducts q w = (Send 400 (failure "Search query is required"), w)
  | Some s =>
      q = Some s /\ s <> "" /\
      (forall st b,
          fst (searchProducts q w) = Send st b ->
          exists r page,
            RegExp_new s "i" = Resolved r /\ st = 200 /\
            data b = Some (ManyProducts page) /\
            count b = Some (Z.of_nat (length page)) /\
            (length page <= 20)%nat /\
            forall d, d ∈ page ->
              d ∈ products w /\
              like r (field d "name") || like r (field d "brand")
              || like r (field d "description") = true) /\
      (forall r, RegExp_new s "i" = Resolved r ->
         exists page,
           searchProducts q w
           = (Send 200 (mkEnvelope true None
                          (Some (Z.of_nat (length page))) None None None
                          (Some (ManyProducts page))), w) /\
           forall d, d ∈ products w -> hit r d = true ->
                     (length (products w) <= 20)%nat -> d ∈ page)
  end.
Proof.
  destruct (supplied q) as [s|] eqn:Q.
  - assert (q = Some s /\ s <> "") as [-> N].
    { destruct q as [s'|]; simpl in Q; [|discriminate].
      destruct (String.eqb s' "") eqn:E; [discriminate|].
      apply String.eqb_neq in E. by simplify_eq. }
    do 2 (split; [done|]). split.
    + intros st b
        [(Q' & _)|(s' & r & pg & Q' & C & -> & -> & Len & In_pg)]%searchProducts_sent;
        [congruence|].
      rewrite Q in Q'. simplify_eq. exists r, pg. simpl.
      do 4 (split; [done|]). split; [lia|].
      intros d [? Hit]%In_pg. split; [done|].
      unfold hit in Hit. by apply andb_prop in Hit as [Hit _].
    + intros r C. by apply searchProducts_compiled.
  - split.
    + destruct q as [s|]; [right|by left]. simpl in Q.
      destruct (String.eqb s "") eqn:E; [|discriminate].
      apply String.eqb_eq in E. by subst.
    + unfold searchProducts, handler. by rewrite Q.
Qed.

(** C8, as amended.  Every successful response carries 201 for create and
    duplicate and 200 for every other operation, the two uploads
    included: the spec's table holds for every operation that is not an
    upload. *)
Theorem success_status_by_operation (r : request) w st (b : envelope) :
  fst (router r w) = Send st b -> success b = true ->
  st = status_sent r /\
  (is_upload r = false -> st = status_by_spec r) /\
  (is_upload r = true -> st = 200).
Proof.
  intros E S. rewrite (success_status r w st b E S).
  by destruct r.
Qed.


(** C10. The search term and the brand filter go to [new RegExp] as they
    are.  When the runtime rejects the pattern of a lone opening
    parenthesis and the store reads [|] as alternation: Search with
    [q = "a|b"]
    lists a product in which "a|b" occurs nowhere as a substring, List
    with that brand filter does the same, and with the term or the brand
    filter "(" neither handler answers 400 or a result page: the error
    goes to [next]. *)
Theorem pattern_is_compiled :
  (exists e, RegExp_new "(" "i" = Rejected e) ->
  (exists r, RegExp_new "a|b" "i" = Resolved r /\ regex_match r "b" = true) ->
  (forall c : Cloud,
      exists d page b,
        let w := mkWorld [d] [] c [] in
        searchProducts (Some "a|b") w = (Send 200 b, w) /\
        data b = Some (ManyProducts page) /\ d ∈ page /\
        literal_hit "a|b" d = false) /\
  (forall c : Cloud,
      exists d page b,
        let w := mkWorld [d] [] c [] in
        getAllProducts (mkListRequest None None None None (Some "a|b") None) w
          = (Send 200 b, w) /\
        data b = Some (ManyProducts page) /\ d ∈ page /\
        contains_ci "a|b" (field d "brand") = false) /\
  (forall w, exists e, searchProducts (Some "(") w = (Next e, w)) /\
  (forall w req,
      rq_brand req = Some "(" -> exists e, getAllProducts req w = (Next e, w)).
Proof.
  intros [e Bad] (r & Good & Test).
  pose (d := (<["name" := VStr "b"]>
                (<["brand" := VStr "b"]>
                   (<["isActive" := VBool true]> ∅))) : doc).
  assert (field d "name" = VStr "b") as Name by reflexivity.
  assert (field d "brand" = VStr "b") as Brand by reflexivity.
  assert (active d = true) as Active by reflexivity.
  split; [|split; [|split]].
  - intros c.
    destruct (searchProducts_compiled "a|b" r (mkWorld [d] [] c []))
      as (pg & E & In_pg); [done..|].
    exists d, pg. eexists. cbv zeta.
    split; [exact E|]. split; [reflexivity|]. split.
    + apply In_pg; simpl; [by left| |lia].
      unfold hit. rewrite Name, Active. simpl. by rewrite Test.
    + reflexivity.
  - intros c. exists d, [d]. eexists. cbv zeta. split.
    { unfold getAllProducts, handler, bind, settle. simpl. rewrite Good.
      unfold ret at 1. unfold exec, countDocuments, ret. simpl.
      fold (active d). rewrite Brand, Active. simpl. rewrite Test. simpl.
      reflexivity. }
    split; [reflexivity|]. split; [by left|reflexivity].
  - intros w. exists e.
    unfold searchProducts, handler, bind, settle. simpl. by rewrite Bad.
  - intros w req B. exists e.
    unfold getAllProducts, handler, bind, settle. rewrite B. simpl.
    by rewrite Bad.
Qed.

End Properties.

(** ** The claims on the sample catalog *)

Import Sample.

(** Deleting the shirt: both cleanup calls resolve; the plain store takes
    the write and the handler answers 200, a store that refuses it sends
    the handler to [next]. *)
Lemma delete_survives_media_failures_witness :
  List.find (has_id (VStr "p1")) (products shop) = Some shirt /\
  images_sound shirt = true /\
  fst (deleteProduct_on save "p1" shop)
    = Send 200 (done_with "Product deleted successfully" None) /\
  fst (deleteProduct_on refusing "p1" shop)
    = Next (StoreError "write refused").
Proof.
  split; [reflexivity|]. split; [reflexivity|]. split.
  - destruct (delete_survives_media_failures save shop "p1" shirt)
      as (v1 & w1 & v2 & w2 & _ & _ & _ & _ & _ & _ & _ & Ok & _);
      [reflexivity..|].
    by erewrite Ok; [|reflexivity].
  - destruct (delete_survives_media_failures refusing shop "p1" shirt)
      as (v1 & w1 & v2 & w2 & _ & _ & _ & _ & _ & _ & _ & _ & Ko);
      [reflexivity..|].
    by erewrite Ko; [|reflexivity].
Defined.

(** The scarf's image list has a hole: the delete ends in [next] and the
    scarf stays active.  And a store that refuses the write sends the
    delete of the shirt to [next] as well. *)
Lemma delete_null_image_counterexample :
  List.find (has_id (VStr "p3")) (products annex) = Some torn /\
  deleteProduct "p3" annex
    = (Next (TypeError "Cannot read properties of null (reading 'publicId')"),
       annex) /\
  torn !! "isActive" = Some (VBool true) /\
  List.find (has_id (VStr "p1")) (products shop) = Some shirt /\
  fst (deleteProduct_on refusing "p1" shop)
    = Next (StoreError "write refused") /\
  ~ (forall (w : World) id p,
        List.find (has_id (VStr id)) (products w) = Some p ->
        exists w',
          deleteProduct id w
            = (Send 200 (done_with "Product deleted successfully" None), w')).
Proof.
  do 5 (split; [reflexivity|]). intros H.
  destruct (H annex "p3" torn eq_refl) as [w' E]. discriminate E.
Qed.

(** The hosting service rejects both cleanup calls of a second delete,
    the images being gone; the handler logs them and answers 200. *)
Example second_delete_logs :
  let w1 := snd (deleteProduct "p1" shop) in
  cloud w1 = [] /\
  fst (deleteProduct "p1" w1)
    = Send 200 (done_with "Product deleted successfully" None) /\
  console (snd (deleteProduct "p1" w1))
    = [("Error deleting product images:", MediaError "not found");
       ("Error deleting size chart image:", MediaError "not found")].
Proof. repeat split; reflexivity. Qed.

Lemma update_keeps_immutable_witness :
  let body : doc :=
    list_to_map [("_id", VStr "zz"); ("createdAt", VNum 0);
                 ("name", VStr "Cap")] in
  List.find (has_id (VStr "p2")) (products shop) = Some hat /\
  loses_save body = false /\
  overwrite body hat !! "_id" = Some (VStr "p2") /\
  overwrite body hat !! "createdAt" = Some (VNum 11) /\
  overwrite body hat !! "name" = Some (VStr "Cap") /\
  fst (updateProduct_on save "p2" body shop)
    = Send 200 (done_with "Product updated successfully"
                  (Some (OneProduct (overwrite body hat)))).
Proof.
  intros body. split; [reflexivity|]. split; [reflexivity|].
  destruct (update_keeps_immutable save shop "p2" body hat)
    as (I & _ & C & _ & O & _ & S & _); [reflexivity|].
  split; [by rewrite I|]. split; [by rewrite C|].
  split; [by apply O|].
  destruct (S eq_refl) as [Ok _]. by erewrite Ok; [|reflexivity].
Defined.

(** A body with a key [save]: the update ends in [next] and the hat keeps
    its name.  And on a store that stamps a document when it writes it,
    the stored [updatedAt] is not the one the update found. *)
Lemma update_save_key_counterexample :
  let body : doc := list_to_map [("name", VStr "Cap"); ("save", VNum 1)] in
  List.find (has_id (VStr "p2")) (products shop) = Some hat /\
  updateProduct "p2" body shop
    = (Next (TypeError "product.save is not a function"), shop) /\
  hat !! "name" = Some (VStr "Hat") /\
  (let w' := snd (updateProduct_on stamping "p2" {["name" := VStr "Cap"]} shop) in
   hat !! "updatedAt" = Some (VNum 21) /\
   exists d,
     List.find (has_id (VStr "p2")) (products w') = Some d /\
     d !! "updatedAt" = Some (VNum 1002)) /\
  ~ (forall (w : World) id (b : doc) p,
        List.find (has_id (VStr id)) (products w) = Some p ->
        exists p' w',
          updateProduct id b w
            = (Send 200 (done_with "Product updated successfully"
                           (Some (OneProduct p'))), w')).
Proof.
  intros body. do 3 (split; [reflexivity|]). split.
  { split; [reflexivity|]. eexists. split; reflexivity. }
  intros H. destruct (H shop "p2" body hat eq_refl) as (p' & w' & E).
  discriminate E.
Qed.

(** Duplicating the retired hat yields another retired product. *)
Lemma duplicate_copies_witness :
  List.find (has_id (VStr "p2")) (products shop) = Some hat /\
  exists d w',
    duplicateProduct "p2" shop
      = (Send 201 (done_with "Product duplicated successfully"
                     (Some (OneProduct d))), w') /\
    d !! "name" = Some (VStr "Hat (Copy)") /\
    d !! "isActive" = Some (VBool false) /\
    d !! "_id" = Some (VStr "id2").
Proof.
  split; [reflexivity|].
  destruct (duplicate_copies shop "p2" hat)
    as (d & w' & E & _ & _ & N & _ & _ & _ & _ & A & _ & _ & I & _);
    [reflexivity|].
  exists d, w'. split; [done|]. split; [by apply (N "Hat")|].
  split; [by rewrite A|]. by rewrite I.
Defined.

(** The retired hat: Get-by-id returns it, List and a Search for "a"
    (which its name and description contain) do not. *)
Lemma inactive_hidden_but_gettable_witness :
  List.find (has_id (VStr "p2")) (products shop) = Some hat /\
  hat !! "isActive" = Some (VBool false) /\
  (exists p',
      getProduct "p2" shop
        = (Send 200 (mkEnvelope true None None None None None
                       (Some (OneProduct p'))), shop) /\
      p' !! "isActive" = Some (VBool false)) /\
  (exists b page,
      fst (getAllProducts (mkListRequest None None None None None None) shop)
        = Send 200 b /\
      data b = Some (ManyProducts page) /\ length page = 1%nat /\
      forall d, d ∈ page -> d !! "isActive" = Some (VBool true)) /\
  (exists b page,
      fst (searchProducts (Some "a") shop) = Send 200 b /\
      data b = Some (ManyProducts page) /\ page = [shirt] /\
      forall d, d ∈ page -> d !! "isActive" = Some (VBool true)).
Proof.
  split; [reflexivity|]. split; [reflexivity|].
  destruct (inactive_hidden_but_gettable shop) as (L & S & G).
  split; [|split].
  - destruct (G "p2" hat) as (p' & E & A & _); [reflexivity|].
    exists p'. split; [done|]. by rewrite A.
  - eexists _, _. split; [reflexivity|]. split; [reflexivity|].
    split; [reflexivity|]. intros d I.
    by eapply (L (mkListRequest None None None None None None));
      [reflexivity..|].
  - eexists _, _. split; [reflexivity|]. split; [reflexivity|].
    split; [reflexivity|]. intros d I.
    by eapply (S (Some "a")); [reflexivity..|].
Defined.

Lemma unknown_id_not_found_witness :
  List.find (has_id (VStr "zz")) (products shop) = None /\
  getProduct "zz" shop = (Send 404 (failure "Product not found"), shop) /\
  deleteProduct "zz" shop = (Send 404 (failure "Product not found"), shop).
Proof.
  split; [reflexivity|].
  destruct (unknown_id_not_found shop "zz") as (_ & G & _ & D & _);
    [reflexivity|].
  by split.
Defined.

Lemma delete_twice_witness :
  List.find (has_id (VStr "p1")) (products shop) = Some shirt /\
  images_sound shirt = true /\
  exists w1 w2,
    fst (deleteProduct "p1" shop)
      = Send 200 (done_with "Product deleted successfully" None) /\
    w1 = snd (deleteProduct "p1" shop) /\
    deleteProduct "p1" w1
      = (Send 200 (done_with "Product deleted successfully" None), w2) /\
    products w2 = products w1.
Proof.
  split; [reflexivity|]. split; [reflexivity|].
  destruct (delete_twice shop "p1" shirt)
    as (w1 & w2 & p' & E1 & E2 & _ & _ & _ & P); [reflexivity..|].
  exists w1, w2. rewrite E1. by repeat split.
Defined.

(** The scarf again: neither of two deletes gets past the hole in its
    image list, and the scarf is active after each. *)
Lemma delete_twice_counterexample :
  let w1 := snd (deleteProduct "p3" annex) in
  let w2 := snd (deleteProduct "p3" w1) in
  List.find (has_id (VStr "p3")) (products annex) = Some torn /\
  (exists msg, fst (deleteProduct "p3" annex) = Next (TypeError msg)) /\
  (exists msg, fst (deleteProduct "p3" w1) = Next (TypeError msg)) /\
  (forall d, List.find (has_id (VStr "p3")) (products w1) = Some d ->
             d !! "isActive" = Some (VBool true)) /\
  (forall d, List.find (has_id (VStr "p3")) (products w2) = Some d ->
             d !! "isActive" = Some (VBool true)).
Proof.
  intros w1 w2. split; [reflexivity|].
  split; [eexists; reflexivity|]. split; [eexists; reflexivity|].
  split; intros d [= <-]; reflexivity.
Qed.

Lemma search_contract_witness :
  (exists page, fst (searchProducts (Some "sh.rt|hat") shop)
     = Send 200 (mkEnvelope true None (Some (Z.of_nat (length page))) None
                   None None (Some (ManyProducts page)))
     /\ shirt ∈ page) /\
  searchProducts (Some "") shop
    = (Send 400 (failure "Search query is required"), shop) /\
  searchProducts None shop
    = (Send 400 (failure "Search query is required"), shop).
Proof.
  split; [|split].
  - destruct (search_contract (Some "sh.rt|hat") shop) as (_ & _ & _ & R).
    destruct (R _ eq_refl) as (page & E & In_page).
    exists page. rewrite E. split; [done|].
    apply In_page; [by left|reflexivity|simpl; lia].
  - by destruct (search_contract (Some "") shop) as [_ E].
  - by destruct (search_contract None shop) as [_ E].
Defined.

(** The two uploads answer 200 where the spec's table says 201. *)
Lemma upload_status_counterexample :
  fst (router (POST_products_upload_images (Some [VStr "front.png"])) shop)
    = Send 200 (done_with "Images uploaded successfully"
                  (Some (Images (VArr [stored_as (VStr "front.png")])))) /\
  status_by_spec (POST_products_upload_images (Some [VStr "front.png"])) = 201 /\
  fst (router (POST_products_upload_size_chart (Some (VStr "chart.png"))) shop)
    = Send 200 (done_with "Size chart uploaded successfully"
                  (Some (Image (stored_as (VStr "chart.png"))))) /\
  status_by_spec (POST_products_upload_size_chart (Some (VStr "chart.png"))) = 201 /\
  ~ (forall (r : request) (w : World) st b,
        fst (router r w) = Send st b -> success b = true ->
        st = status_by_spec r).
Proof.
  do 4 (split; [reflexivity|]). intros H.
  specialize (H (POST_products_upload_images (Some [VStr "front.png"])) shop
                _ _ eq_refl eq_refl).
  discriminate H.
Qed.

Lemma success_status_by_operation_witness :
  let r := POST_products_upload_images (Some [VStr "front.png"]) in
  let b := done_with "Images uploaded successfully"
             (Some (Images (VArr [stored_as (VStr "front.png")]))) in
  fst (router r shop) = Send 200 b /\ success b = true /\
  200 = status_sent r.
Proof.
  intros r b. split; [reflexivity|]. split; [reflexivity|].
  by destruct (success_status_by_operation r shop 200 b eq_refl eq_refl).
Defined.


Lemma pattern_is_compiled_witness :
  (exists e, RegExp_new "(" "i" = Rejected e) /\
  (exists r, RegExp_new "a|b" "i" = Resolved r /\ regex_match r "b" = true) /\
  (exists e, searchProducts (Some "(") shop = (Next e, shop)) /\
  (exists e,
      getAllProducts (mkListRequest None None None None (Some "(") None) shop
      = (Next e, shop)).
Proof.
  assert (exists e, RegExp_new "(" "i" = Rejected e) as Bad
    by (eexists; reflexivity).
  assert (exists r, RegExp_new "a|b" "i" = Resolved r
                    /\ regex_match r "b" = true) as Good
    by (eexists; split; reflexivity).
  do 2 (split; [done|]).
  destruct (pattern_is_compiled Bad Good) as (_ & _ & S & L).
  split; [apply S|by apply L].
Defined.

(** * Further properties of the handlers and the routes *)

Section Further.
Context `{Media : MediaCollaborator} `{RT : JSRuntime}
        `{Store : !StoreEngine}.

Implicit Types (w : World) (p d : doc) (id : string).

Lemma world_eta w :
  mkWorld (products w) (shippingStructures w) (cloud w) (console w) = w.
Proof. by destruct w. Qed.

(** The image block of the delete handler never touches the collection,
    and when it rejects it has done nothing at all. *)
Lemma cleanup_images_frame w p (o : outcome value) w' :
  cleanup_images p w = (o, w') ->
  products w' = products w /\
  shippingStructures w' = shippingStructures w /\
  (forall e, o = Rejected e -> w' = w /\ images_sound p = false).
Proof.
  unfold cleanup_images, images_sound.
  destruct (images_of p) as [|img imgs].
  { intros [= <- <-]. by repeat split. }
  unfold bind, settle, catch, media, console_error.
  destruct (map_outcome publicId_of (img :: imgs)) as [ids|e] eqn:I.
  - destruct (deleteMultipleImages ids (cloud w)) as [[v|e] c];
      intros [= <- <-]; by repeat split.
  - intros [= <- <-]. do 2 (split; [done|]). intros e' _. split; [done|].
    destruct (forallb _ (img :: imgs)) eqn:S; [|done].
    destruct (map_outcome_sound _ S) as [ids I']. congruence.
Qed.

Lemma cleanup_sizeChart_frame w p :
  exists v w',
    cleanup_sizeChart p w = (Resolved v, w') /\
    products w' = products w /\
    shippingStructures w' = shippingStructures w.
Proof.
  unfold cleanup_sizeChart, catch, media, console_error, ret.
  destruct (truthy _ && truthy _); [|by eexists _, _].
  destruct (deleteCloudinaryImage _ (cloud w)) as [[v|e] c];
    by eexists _, _.
Qed.

(** The update handler on an identifier that resolves, in full. *)
Lemma updateProduct_eq w id (body : doc) p :
  List.find (has_id (VStr id)) (products w) = Some p ->
  loses_save body = false ->
  updateProduct id body w
  = (Send 200 (done_with "Product updated successfully"
                 (Some (OneProduct (overwrite body p)))),
     mkWorld (replace_first (has_id (VStr id)) (overwrite body p) (products w))
             (shippingStructures w) (cloud w) (console w)).
Proof.
  intros F L. unfold updateProduct.
  rewrite (updateProduct_on_found save w id body p F), L.
  unfold save. rewrite overwrite_id. by rewrite (found_has_id _ _ _ F).
Qed.

Ltac run_handler :=
  unfold getAllProducts, searchProducts, getProduct, createProduct,
    duplicateProduct, updateProduct, updateProduct_on, deleteProduct,
    deleteProduct_on, uploadImages, deleteImage, uploadSizeChart, handler,
    bind, populated, findById, save, create, exec, countDocuments, settle,
    media, ret.

(** Which handler touches what. *)
Lemma router_frame (r : request) w :
  let w' := snd (router r w) in
  shippingStructures w' = shippingStructures w /\
  (match r with
   | DELETE_products_id _ => True
   | _ => console w' = console w
   end) /\
  (awaits_media r = false -> cloud w' = cloud w) /\
  (writes_products r = false -> products w' = products w) /\
  (awaits_media r = false -> writes_products r = false -> w' = w).
Proof.
  destruct r; simpl.
  - run_handler. repeat case_match; simplify_eq; by rewrite ?world_eta.
  - run_handler. repeat case_match; simplify_eq; by rewrite ?world_eta.
  - run_handler. repeat case_match; simplify_eq; by rewrite ?world_eta.
  - run_handler. by repeat split.
  - run_handler. repeat case_match; simplify_eq; by repeat split.
  - run_handler. repeat case_match; simplify_eq; by repeat split.
  - unfold deleteProduct, deleteProduct_on, handler, bind, findById, save,
      ret.
    destruct (List.find _ (products w)) as [p|]; [|by repeat split].
    destruct (cleanup_images p w) as [[v1|e] w1] eqn:E1.
    + apply cleanup_images_frame in E1 as (P1 & S1 & _).
      destruct (cleanup_sizeChart_frame w1 p) as (v2 & w2 & -> & P2 & S2).
      simpl. repeat split; try done. by rewrite S2, S1.
    + apply cleanup_images_frame in E1 as (_ & S1 & _). by repeat split.
  - run_handler. repeat case_match; simplify_eq; by repeat split.
  - run_handler. repeat case_match; simplify_eq; by repeat split.
  - run_handler. repeat case_match; simplify_eq; by repeat split.
Qed.

(** X1. Which handler touches what.  No request changes the shipping
    structures; only the delete handler writes to the console; a handler
    that does not await the media collaborator leaves its state alone; a
    handler that does not write to the collection leaves it as it was.
    In particular the three GET handlers change nothing at all. *)
Theorem effects_by_route (r : request) w :
  let w' := snd (router r w) in
  shippingStructures w' = shippingStructures w /\
  (match r with
   | DELETE_products_id _ => True
   | _ => console w' = console w
   end) /\
  (awaits_media r = false -> cloud w' = cloud w) /\
  (writes_products r = false -> products w' = products w) /\
  (awaits_media r = false -> writes_products r = false -> w' = w).
Proof.
  intros w'. subst w'.
  destruct (router_frame r w) as (Ships & Log & Hosted & Stored & Pure).
  split; [exact Ships|]. split; [exact Log|].
  split; [exact Hosted|]. split; [exact Stored|exact Pure].
Qed.

(** X2. A refusal comes before any effect.  A response with
    [success = false] is a 400 or a 404, carries a message and no data,
    and leaves the world exactly as it was. *)
Theorem refusals_change_nothing (r : request) w st (b : envelope) :
  fst (router r w) = Send st b -> success b = false ->
  (st = 400 \/ st = 404) /\ snd (router r w) = w /\
  data b = None /\ is_Some (message b).
Proof.
  destruct r; simpl.
  - by intros (? & ? & _ & _ & -> & _)%getAllProducts_sent.
  - unfold searchProducts, handler, bind, settle, ret.
    repeat case_match; simpl; intros; simplify_eq; try done.
    repeat split; eauto.
  - run_handler. repeat case_match; simpl; intros; simplify_eq; try done.
    repeat split; eauto.
  - run_handler; simpl; intros; simplify_eq; done.
  - run_handler; repeat case_match; simpl; intros; simplify_eq;
      try done. repeat split; eauto.
  - run_handler; repeat case_match; simpl; intros; simplify_eq;
      try done. repeat split; eauto.
  - unfold deleteProduct, deleteProduct_on, handler, bind, findById, save,
      ret.
    destruct (List.find _ (products w)) as [p|].
    2:{ simpl; intros; simplify_eq. repeat split; eauto. }
    destruct (cleanup_images p w) as [[v1|e] w1] eqn:E1.
    + destruct (cleanup_sizeChart_frame w1 p) as (v2 & w2 & -> & _).
      simpl; intros; simplify_eq; done.
    + simpl; intros; simplify_eq.
  - run_handler; repeat case_match; simpl; intros; simplify_eq;
      try done; repeat split; eauto.
  - run_handler; repeat case_match; simpl; intros; simplify_eq;
      try done; repeat split; eauto.
  - run_handler; repeat case_match; simpl; intros; simplify_eq;
      try done; repeat split; eauto.
Qed.

(** *** Identifiers *)

Lemma ids_replace_first (f : doc -> bool) d (l : list doc) p :
  List.find f l = Some p ->
  (forall x, f x = true -> field x "_id" = field d "_id") ->
  map (fun x => field x "_id") (replace_first f d l)
  = map (fun x => field x "_id") l.
Proof.
  intros F Same. induction l as [|x l IH]; simpl in *; [discriminate|].
  destruct (f x) eqn:E; simpl; [by rewrite (Same x E)|].
  by rewrite IH.
Qed.

Lemma ids_save w id p d :
  List.find (has_id (VStr id)) (products w) = Some p ->
  field d "_id" = VStr id ->
  map (fun x => field x "_id")
      (replace_first (has_id (VStr id)) d (products w))
  = ids w.
Proof.
  intros F E. apply ids_replace_first with p; [done|].
  intros x Hx. rewrite E. by apply value_eqb_VStr.
Qed.

Lemma field_assign_id (st : list doc) (data : doc) :
  field (assign st data) "_id" = new_id st.
Proof. unfold field, assign. by rewrite lookup_insert_eq. Qed.

(** Whether an identifier resolves depends on the identifiers held, and on
    nothing else. *)
Lemma resolves_by_ids (i : value) (l : list doc) :
  is_Some (List.find (has_id i) l)
  <-> existsb (fun v => value_eqb v i) (map (fun x => field x "_id") l) = true.
Proof.
  induction l as [|x l IH]; simpl.
  - split; [by intros [? ?]|done].
  - unfold has_id at 1. destruct (value_eqb (field x "_id") i); simpl.
    + split; [done|by eexists].
    + apply IH.
Qed.

(** What each request does to the identifiers held. *)
Lemma router_ids (r : request) w :
  (ids (snd (router r w)) = ids w /\
   forall b, fst (router r w) = Send 201 b -> writes_products r = false)
  \/
  (ids (snd (router r w)) = (ids w ++ [new_id (products w)])%list /\
   exists b, fst (router r w) = Send 201 b).
Proof.
  destruct (writes_products r) eqn:W.
  2:{ left. destruct (router_frame r w) as (_ & _ & _ & P & _).
      unfold ids. by rewrite P. }
  destruct r; try discriminate; simpl.
  - right. unfold createProduct, handler, bind, create, ret, ids. simpl.
    rewrite map_app. simpl. rewrite field_assign_id. eauto.
  - unfold duplicateProduct, handler, bind, findById, create, ret, ids.
    destruct (List.find _ (products w)) as [p|]; simpl.
    + right. rewrite map_app. simpl. rewrite field_assign_id. eauto.
    + left. split; [done|]. intros b. discriminate.
  - left. unfold updateProduct.
    destruct (List.find (has_id (VStr id)) (products w)) as [p|] eqn:F.
    + rewrite (updateProduct_on_found save w id body p F).
      destruct (loses_save body); simpl;
        (split; [|intros b; discriminate]); [done|].
      unfold ids at 1. simpl.
      assert (field (overwrite body p) "_id" = VStr id) as E.
      { rewrite overwrite_id. by apply found_has_id in F. }
      rewrite E. by apply ids_save with p.
    + unfold updateProduct_on, handler, bind, findById, ret. rewrite F.
      simpl. split; [done|]. intros b. discriminate.
  - left. unfold deleteProduct, deleteProduct_on, handler, bind, findById,
      ret.
    destruct (List.find _ (products w)) as [p|] eqn:F; simpl.
    2:{ split; [done|]. intros b. discriminate. }
    destruct (cleanup_images p w) as [[v1|e] w1] eqn:E1.
    + apply cleanup_images_frame in E1 as (P1 & _).
      destruct (cleanup_sizeChart_frame w1 p) as (v2 & w2 & -> & P2 & _).
      simpl. split; [|intros b; discriminate]. unfold ids at 1. simpl.
      rewrite field_insert_ne by done. rewrite (found_has_id _ _ _ F).
      rewrite P2, P1. apply ids_save with p; [done|].
      rewrite field_insert_ne by done. by apply found_has_id in F.
    + apply cleanup_images_frame in E1 as (P1 & _). simpl.
      split; [by unfold ids; rewrite P1|]. intros b. discriminate.
Qed.

(** X3. No request removes a record or changes an identifier.  Every
    request leaves the list of identifiers as it was, except a create or a
    duplicate answered 201, which appends the one identifier the store
    assigned; so an identifier that resolved before the request resolves
    after it. *)
Theorem never_removes_a_record (r : request) w :
  let w' := snd (router r w) in
  (ids w' = ids w \/
   (ids w' = (ids w ++ [new_id (products w)])%list /\
    exists b, fst (router r w) = Send 201 b)) /\
  (length (products w) <= length (products w'))%nat /\
  (forall id,
      is_Some (List.find (has_id (VStr id)) (products w)) ->
      is_Some (List.find (has_id (VStr id)) (products w'))).
Proof.
  intros w'. subst w'.
  assert (exists extra,
            ids (snd (router r w)) = (ids w ++ extra)%list) as [extra E].
  { destruct (router_ids r w) as [[E _]|[E _]];
      [exists []; by rewrite app_nil_r|eauto]. }
  split; [|split].
  - destruct (router_ids r w) as [[? _]|?]; [by left|by right].
  - apply (f_equal length) in E. unfold ids in E.
    rewrite length_app, !length_map in E. lia.
  - intros id. rewrite !resolves_by_ids. fold (ids w).
    fold (ids (snd (router r w))). rewrite E, existsb_app.
    intros ->. done.
Qed.

(** *** Updates in sequence *)

Lemma overwrite_union (b1 b2 : doc) p :
  overwrite b2 (overwrite b1 p) = overwrite (b2 ∪ b1) p.
Proof.
  apply map_eq. intros k. rewrite !overwrite_lookup, lookup_union.
  destruct (kept k); [done|].
  by destruct (b2 !! k), (b1 !! k).
Qed.

Lemma loses_save_union (b1 b2 : doc) :
  loses_save b1 = false -> loses_save b2 = false ->
  loses_save (b2 ∪ b1) = false.
Proof.
  unfold loses_save. rewrite !lookup_union.
  destruct (b2 !! "save"), (b1 !! "save"); try done.
  destruct (b2 !! "__proto__") as [[]|], (b1 !! "__proto__") as [[]|]; done.
Qed.

Lemma overwrite_immutable_only (body : doc) p :
  (forall k, is_Some (body !! k) -> includes immutableFields k = true) ->
  overwrite body p = p.
Proof.
  intros Only. apply map_eq. intros k. rewrite overwrite_lookup.
  destruct (kept k) eqn:I; [done|].
  destruct (body !! k) as [v|] eqn:B; [|done].
  rewrite kept_immutable in I; [done|]. apply Only. by eexists.
Qed.

Lemma replace_first_again (f : doc -> bool) (d1 d2 : doc) (l : list doc) p :
  List.find f l = Some p -> f d1 = true ->
  replace_first f d2 (replace_first f d1 l) = replace_first f d2 l.
Proof.
  intros F T. induction l as [|x l IH]; simpl in *; [discriminate|].
  destruct (f x) eqn:E; simpl.
  - by rewrite T.
  - rewrite E. by rewrite IH.
Qed.

Lemma has_id_overwrite w id (body : doc) p :
  List.find (has_id (VStr id)) (products w) = Some p ->
  has_id (VStr id) (overwrite body p) = true.
Proof.
  intros F. unfold has_id. rewrite overwrite_id.
  apply List.find_some in F as [_ F]. exact F.
Qed.

(** X4. Updates compose.  For bodies that leave the document its [save]
    method (no key [save], no object under [__proto__]) and a store that
    keeps a document as handed over, two updates of the same product leave
    the world, and return the response, that the single update with the
    merged body (the later body winning) would: in particular an update
    repeated with the same body changes nothing further and answers as
    before. *)
Theorem updates_compose w id (b1 b2 : doc) p :
  List.find (has_id (VStr id)) (products w) = Some p ->
  loses_save b1 = false -> loses_save b2 = false ->
  updateProduct id b2 (snd (updateProduct id b1 w))
    = updateProduct id (b2 ∪ b1) w /\
  updateProduct id b1 (snd (updateProduct id b1 w))
    = updateProduct id b1 w.
Proof.
  intros F L1 L2.
  assert (forall b, loses_save b = false ->
                    updateProduct id b (snd (updateProduct id b1 w))
                    = updateProduct id (b ∪ b1) w) as Two.
  { intros b L. rewrite (updateProduct_eq w id b1 p F L1). simpl.
    pose proof (has_id_overwrite w id b1 p F) as T.
    rewrite (updateProduct_eq _ id b (overwrite b1 p)); [|simpl|done].
    2:{ by apply find_replace_first with p. }
    rewrite (updateProduct_eq w id (b ∪ b1) p F (loses_save_union _ _ L1 L)).
    simpl. rewrite overwrite_union.
    by rewrite (replace_first_again _ _ _ _ p F T). }
  split; [by apply Two|]. rewrite Two by done. f_equal. apply (idemp_L (∪)).
Qed.

(** X5. An update that supplies nothing it may change (an empty body, or
    one holding only [_id], [__v], [createdAt], [updatedAt]) answers 200
    with the record as it was and leaves the world as it was. *)
Theorem update_nothing_to_change w id (body : doc) p :
  List.find (has_id (VStr id)) (products w) = Some p ->
  (forall k, is_Some (body !! k) -> includes immutableFields k = true) ->
  updateProduct id body w
  = (Send 200 (done_with "Product updated successfully"
                 (Some (OneProduct p))), w).
Proof.
  intros F Only.
  rewrite (updateProduct_eq w id body p F (immutable_only_keeps_save _ Only)).
  rewrite (overwrite_immutable_only body p Only).
  by rewrite (replace_first_same _ _ _ F), world_eta.
Qed.

(** X6. Get after Update.  Once an update whose body leaves the document
    its [save] method has answered, Get-by-id on the same id returns the
    record the update returned, with its shipping structure resolved, and
    changes nothing. *)
Theorem update_then_get w id (body : doc) p :
  List.find (has_id (VStr id)) (products w) = Some p ->
  loses_save body = false ->
  let w' := snd (updateProduct id body w) in
  getProduct id w'
  = (Send 200 (mkEnvelope true None None None None None
                 (Some (OneProduct
                          (populate_one (shippingStructures w)
                                        (overwrite body p))))), w') /\
  fst (updateProduct id body w)
  = Send 200 (done_with "Product updated successfully"
                (Some (OneProduct (overwrite body p)))).
Proof.
  intros F L w'. subst w'. rewrite (updateProduct_eq w id body p F L). simpl.
  split; [|done]. rewrite getProduct_found with (p := overwrite body p).
  - done.
  - simpl. apply find_replace_first with p; [done|].
    by apply (has_id_overwrite w).
Qed.

(** *** Deleting *)

Lemma map_outcome_unsound (imgs : list value) :
  forallb (fun img => negb (nullish img)) imgs = false ->
  exists msg, map_outcome publicId_of imgs = Rejected (TypeError msg).
Proof.
  induction imgs as [|img imgs IH]; simpl; [discriminate|].
  unfold publicId_of at 1. destruct (nullish img); simpl; [by eexists|].
  intros [msg ->]%IH. by eexists.
Qed.

(** X7. A hole in the stored image list stops the delete.  When an entry
    of [images] is [null] or [undefined], reading its [publicId] throws
    before anything is deleted: the handler ends in [next] with a
    [TypeError] and the world, the record's [isActive] included, is as it
    was. *)
Theorem delete_stops_at_null_image w id p :
  List.find (has_id (VStr id)) (products w) = Some p ->
  images_sound p = false ->
  exists msg, deleteProduct id w = (Next (TypeError msg), w).
Proof.
  intros F S. unfold images_sound in S.
  destruct (map_outcome_unsound _ S) as [msg E]. exists msg.
  unfold deleteProduct, deleteProduct_on, handler, bind, findById.
  rewrite F.
  unfold cleanup_images. destruct (images_of p) as [|img imgs];
    [discriminate|].
  unfold bind, settle. by rewrite E.
Qed.

Lemma unique_by_id (l : list doc) (x y : doc) :
  NoDup (map (fun d => field d "_id") l) ->
  x ∈ l -> y ∈ l -> field x "_id" = field y "_id" -> x = y.
Proof.
  induction l as [|z l IH]; simpl; [by intros _ ?%elem_of_nil|].
  intros [Nz Nl]%NoDup_cons [->|Ix]%elem_of_cons [->|Iy]%elem_of_cons E;
    try done.
  - destruct Nz. rewrite E. apply list_elem_of_fmap. by exists y.
  - destruct Nz. rewrite <- E. apply list_elem_of_fmap. by exists x.
  - by apply IH.
Qed.

(** X8. After the delete of a product whose [images] hold no [null] or
    [undefined] entry: Get-by-id still returns the record, now with
    [isActive = false] and, the store's own [updatedAt] and [__v] apart,
    otherwise as it was (its shipping structure resolved), and,
    identifiers being unique, no List and no Search response lists a
    record with that id. *)
Theorem delete_then_views w id p :
  List.find (has_id (VStr id)) (products w) = Some p ->
  images_sound p = true ->
  NoDup (ids w) ->
  let w' := snd (deleteProduct id w) in
  (exists p',
      getProduct id w'
        = (Send 200 (mkEnvelope true None None None None None
                       (Some (OneProduct p'))), w') /\
      p' !! "isActive" = Some (VBool false) /\
      forall k, k <> "isActive" -> k <> "shippingStructure" ->
                k <> "updatedAt" -> k <> "__v" ->
                p' !! k = p !! k) /\
  (forall req d,
      d ∈ listed (fst (getAllProducts req w')) -> field d "_id" <> VStr id) /\
  (forall q d,
      d ∈ listed (fst (searchProducts q w')) -> field d "_id" <> VStr id).
Proof.
  intros F S U w'. subst w'.
  destruct (deleteProduct_found w id p F S) as (w' & -> & F' & P' & _).
  simpl.
  assert (forall x, x ∈ products w' -> active x = true ->
                    field x "_id" <> VStr id) as Hidden.
  { intros x Ix Ax Ex.
    assert (x = <["isActive" := VBool false]> p) as ->.
    { apply (unique_by_id (products w')).
      - rewrite P'. erewrite ids_save; [done..|].
        rewrite field_insert_ne by done. by apply found_has_id in F.
      - done.
      - apply List.find_some in F' as [I _]. by apply list_elem_of_In.
      - rewrite Ex. symmetry. by apply (found_has_id w'). }
    unfold active, field in Ax. by rewrite lookup_insert_eq in Ax. }
  split; [|split].
  - eexists. split; [by apply getProduct_found|]. split.
    + rewrite populate_one_other by done. apply lookup_insert_eq.
    + intros k N1 N2 _ _. rewrite populate_one_other by done.
      by apply lookup_insert_ne.
  - intros req d. unfold listed.
    destruct (fst (getAllProducts req w')) as [st b|e] eqn:R;
      [|by intros ?%elem_of_nil].
    apply getAllProducts_sent in R as (re & pg & _ & _ & -> & In_pg).
    simpl. intros (x & Ix & Sel & ->)%In_pg.
    unfold field. rewrite populate_one_other by done.
    apply Hidden; [done|]. unfold selected in Sel.
    by repeat apply andb_prop in Sel as [Sel _].
  - intros q d. unfold listed.
    destruct (fst (searchProducts q w')) as [st b|e] eqn:R;
      [|by intros ?%elem_of_nil].
    apply searchProducts_sent in R
      as [(_ & _ & ->)|(s & r & pg & _ & _ & _ & -> & _ & In_pg)];
      simpl; [by intros ?%elem_of_nil|].
    intros [Ix Hit]%In_pg. apply Hidden; [done|].
    unfold hit in Hit. by apply andb_prop in Hit as [_ Hit].
Qed.

(** X9. One collaborator failure, two handlers.  When the hosting service
    rejects the deletion of a handle, the delete-image handler forwards
    the error to [next] and logs nothing, whereas the delete handler of a
    product whose size chart is that image logs the error and answers
    200. *)
Theorem image_failure_forwarded_or_logged w (handle : string) e c :
  handle <> "" ->
  decodeURIComponent handle = Resolved handle ->
  deleteCloudinaryImage (VStr handle) (cloud w) = (Rejected e, c) ->
  (fst (deleteImage handle w) = Next e /\
   console (snd (deleteImage handle w)) = console w /\
   products (snd (deleteImage handle w)) = products w) /\
  (forall id p,
      List.find (has_id (VStr id)) (products w) = Some p ->
      images_of p = [] ->
      prop (field p "sizeChart") "imagePublicId" = VStr handle ->
      fst (deleteProduct id w)
        = Send 200 (done_with "Product deleted successfully" None) /\
      console (snd (deleteProduct id w))
        = (console w ++ [("Error deleting size chart image:", e)])%list).
Proof.
  intros N D R. split.
  - unfold deleteImage, handler, bind, settle, media, ret.
    apply String.eqb_neq in N. by rewrite N, D, R.
  - intros id p F I C.
    assert (truthy (field p "sizeChart") = true) as T.
    { destruct (field p "sizeChart"); try done; discriminate C. }
    unfold deleteProduct, deleteProduct_on, handler, bind, findById, save,
      ret. rewrite F.
    unfold cleanup_images, cleanup_sizeChart, catch, media, console_error,
      ret. rewrite I, T, C. simpl.
    apply String.eqb_neq in N. rewrite N. simpl. by rewrite R.
Qed.

(** *** Paging *)

Notation "x <- m ;; k" := (bind m (fun x => k))
  (at level 100, m at next level, right associativity).

(** The part of the List handler that follows the building of the
    query. *)
Lemma list_tail (query : list cond) (sel : doc -> bool) (page size : Z)
    (sortBy : string) w :
  (forall d, matches query d = sel d) ->
  0 <= (page - 1) * size ->
  let hits := List.filter sel (products w) in
  let rest := drop (Z.to_nat ((page - 1) * size)) (order_by sortBy hits) in
  let docs := map (populate_one (shippingStructures w))
                  (if Z.eqb size 0 then rest
                   else take (Z.to_nat (Z.abs size)) rest) in
  handler (
    products <- exec (skip ((page - 1) * size)
                        (limit (size * 1)
                           (sort sortBy (populate (find query))))) ;;
    count <- countDocuments query ;;
    ret (Send 200
           (mkEnvelope true None (Some (Z.of_nat (length products)))
              (Some count) (Some (ceil_div count size)) (Some page)
              (Some (ManyProducts products))))) w
  = (Send 200
       (mkEnvelope true None (Some (Z.of_nat (length docs)))
          (Some (Z.of_nat (length hits)))
          (Some (ceil_div (Z.of_nat (length hits)) size))
          (Some page) (Some (ManyProducts docs))), w).
Proof.
  intros Sel Skip hits rest docs. subst hits rest docs.
  unfold handler, bind, exec, window, countDocuments, ret. simpl.
  rewrite (proj2 (Z.ltb_ge _ _) Skip), Z.mul_1_r.
  rewrite (List.filter_ext _ _ Sel).
  by destruct (Z.eqb size 0).
Qed.

(** The List handler in full, for a window the store accepts. *)
Lemma getAllProducts_eq (req : list_request) (re : option RegExp) w :
  brand_filter (rq_brand req) re ->
  0 <= (default 1 (rq_page req) - 1) * default 10 (rq_limit req) ->
  let size := default 10 (rq_limit req) in
  let hits := List.filter (selected (supplied (rq_search req))
                                    (supplied (rq_category req)) re)
                          (products w) in
  let rest := drop (Z.to_nat ((default 1 (rq_page req) - 1) * size))
                   (order_by (default "-createdAt" (rq_sortBy req)) hits) in
  let page := map (populate_one (shippingStructures w))
                  (if Z.eqb size 0 then rest
                   else take (Z.to_nat (Z.abs size)) rest) in
  getAllProducts req w
  = (Send 200
       (mkEnvelope true None (Some (Z.of_nat (length page)))
          (Some (Z.of_nat (length hits)))
          (Some (ceil_div (Z.of_nat (length hits)) size))
          (Some (default 1 (rq_page req))) (Some (ManyProducts page))), w).
Proof.
  intros Br Skip size hits rest page. subst size hits rest page.
  rewrite <- (list_tail _ _ _ _ _ w
                (matches_selected (supplied (rq_search req))
                   (supplied (rq_category req)) re) Skip).
  unfold getAllProducts, brand_filter in *.
  destruct (supplied (rq_brand req)) as [s|].
  - destruct Br as (r & -> & C). unfold handler, bind at 1, bind at 1.
    unfold settle. rewrite C. reflexivity.
  - subst re. reflexivity.
Qed.

Lemma order_by_length (s : string) (l : list doc) :
  length (order_by s l) = length l.
Proof. apply Permutation_length, order_by_perm. Qed.

(** X10. How many records a page holds.  For a positive page size and a
    page number from 1 on, a List response has
    [count = min size (max 0 (total - (page - 1) * size))]: never more
    than the page size nor than the total, the whole selection on page 1
    when it fits, and nothing on a page past the end. *)
Theorem page_count (req : list_request) w st (b : envelope) :
  let size := default 10 (rq_limit req) in
  let page := default 1 (rq_page req) in
  0 < size -> 1 <= page ->
  fst (getAllProducts req w) = Send st b ->
  exists n,
    total b = Some n /\
    count b = Some (Z.min size (Z.max 0 (n - (page - 1) * size))) /\
    count b = Some (Z.of_nat (length (listed (Send st b)))).
Proof.
  intros size page Hs Hp R. subst size page.
  pose proof R as (re & _ & Br & _)%getAllProducts_sent.
  rewrite (getAllProducts_eq req re w Br) in R by nia.
  simpl in R. injection R as <- <-. eexists. split; [reflexivity|].
  simpl. split; [|done]. f_equal.
  rewrite (proj2 (Z.eqb_neq _ 0)) by lia.
  rewrite length_map, length_take, length_drop, order_by_length. nia.
Qed.

(** *** Undoing and fetching *)

(** X15. A soft delete is undone by an update.  After the delete of an
    active product whose [images] hold no [null] or [undefined] entry, the
    update whose body is [{isActive: true}] answers 200 with, and stores,
    a record that has [isActive = true] again and every field of the
    record the delete found, the store's own [updatedAt] and [__v] apart;
    no identifier is added or lost; and what the media collaborator
    removed stays removed, the update does not call it. *)
Theorem update_undoes_delete w id p :
  List.find (has_id (VStr id)) (products w) = Some p ->
  images_sound p = true ->
  p !! "isActive" = Some (VBool true) ->
  let w1 := snd (deleteProduct id w) in
  let w2 := snd (updateProduct id {["isActive" := VBool true]} w1) in
  exists p2,
    fst (updateProduct id {["isActive" := VBool true]} w1)
      = Send 200 (done_with "Product updated successfully"
                    (Some (OneProduct p2))) /\
    List.find (has_id (VStr id)) (products w2) = Some p2 /\
    p2 !! "isActive" = Some (VBool true) /\
    (forall k, k <> "updatedAt" -> k <> "__v" -> p2 !! k = p !! k) /\
    ids w2 = ids w /\
    cloud w2 = cloud w1.
Proof.
  intros F S A w1 w2. subst w1 w2.
  destruct (deleteProduct_found w id p F S) as (w1 & -> & F1 & P1 & _).
  simpl.
  assert (loses_save {["isActive" := VBool true]} = false) as L
    by (vm_compute; reflexivity).
  rewrite (updateProduct_eq w1 id _ _ F1 L). simpl.
  assert (overwrite {["isActive" := VBool true]}
                    (<["isActive" := VBool false]> p) = p) as ->.
  { apply map_eq. intros k. rewrite overwrite_lookup.
    destruct (decide (k = "isActive")) as [->|N].
    - simpl. by rewrite lookup_singleton_eq.
    - rewrite lookup_singleton_ne, lookup_insert_ne by done.
      by destruct (kept k). }
  assert (has_id (VStr id) p = true) as T
    by (by apply List.find_some in F as [_ F]).
  exists p. split; [done|]. split.
  { apply find_replace_first with (<["isActive" := VBool false]> p); done. }
  split; [done|]. split; [done|]. split; [|done].
  unfold ids. rewrite P1.
  rewrite (replace_first_again _ _ _ _ p F).
  - by rewrite (replace_first_same _ _ _ F).
  - unfold has_id. rewrite field_insert_ne by done. exact T.
Qed.

Lemma find_app_new (f : doc -> bool) (l : list doc) d :
  List.find f l = None -> f d = true -> List.find f (l ++ [d]) = Some d.
Proof.
  intros N T. induction l as [|x l IH]; simpl in *; [by rewrite T|].
  destruct (f x); [discriminate|]. by apply IH.
Qed.

Lemma find_app_old (f : doc -> bool) (l : list doc) d p :
  List.find f l = Some p -> List.find f (l ++ [d]) = Some p.
Proof.
  intros F. induction l as [|x l IH]; simpl in *; [discriminate|].
  destruct (f x); [done|]. by apply IH.
Qed.

(** X16. What Create and Duplicate return can be fetched.  When the store
    assigns an identifier that no record holds yet, Get-by-id on that
    identifier returns the created record (its shipping structure
    resolved), both after a create and after a duplicate; after a
    duplicate, Get-by-id on the source still returns the source. *)
Theorem created_is_gettable w (i : string) :
  new_id (products w) = VStr i ->
  List.find (has_id (VStr i)) (products w) = None ->
  (forall body,
      exists d,
        fst (createProduct body w)
          = Send 201 (done_with "Product created successfully"
                        (Some (OneProduct d))) /\
        fst (getProduct i (snd (createProduct body w)))
          = Send 200 (mkEnvelope true None None None None None
                        (Some (OneProduct
                                 (populate_one (shippingStructures w) d))))) /\
  (forall id p,
      List.find (has_id (VStr id)) (products w) = Some p ->
      exists d,
        fst (duplicateProduct id w)
          = Send 201 (done_with "Product duplicated successfully"
                        (Some (OneProduct d))) /\
        fst (getProduct i (snd (duplicateProduct id w)))
          = Send 200 (mkEnvelope true None None None None None
                        (Some (OneProduct
                                 (populate_one (shippingStructures w) d)))) /\
        fst (getProduct id (snd (duplicateProduct id w)))
          = Send 200 (mkEnvelope true None None None None None
                        (Some (OneProduct
                                 (populate_one (shippingStructures w) p))))).
Proof.
  intros Fresh Free.
  assert (forall data, has_id (VStr i) (assign (products w) data) = true)
    as Mine.
  { intros data. unfold has_id. rewrite field_assign_id, Fresh. simpl.
    apply String.eqb_refl. }
  split.
  - intros body. eexists. split; [reflexivity|].
    unfold createProduct, handler, bind, create, ret. simpl.
    rewrite getProduct_found with (p := assign (products w) body); [done|].
    simpl. by apply find_app_new.
  - intros id p F. rewrite (duplicateProduct_found w id p F). simpl.
    eexists. split; [reflexivity|]. split.
    + rewrite getProduct_found with (p := assign (products w) (copy_of p));
        [done|]. simpl. by apply find_app_new.
    + rewrite getProduct_found with (p := p); [done|]. simpl.
      by apply find_app_old.
Qed.

End Further.

(** ** The routes *)

Lemma method_eqb_eq (a b : method) : method_eqb a b = true -> a = b.
Proof. by destruct a, b. Qed.

Lemma first_match_sound (m : method) (segs : list string) (l : list route)
    (rt : route) (ps : list (string * string)) :
  first_match m segs l = Some (rt, ps) ->
  In rt l /\ r_method rt = m /\ match_path (r_path rt) segs = Some ps.
Proof.
  induction l as [|x l IH]; simpl; [discriminate|].
  destruct (method_eqb (r_method x) m) eqn:E.
  - destruct (match_path (r_path x) segs) as [ps'|] eqn:P.
    + intros [= <- <-]. split; [by left|]. split; [|done].
      by apply method_eqb_eq.
    + intros (? & ? & ?)%IH. auto.
  - intros (? & ? & ?)%IH. auto.
Qed.

(** A captured parameter is one the pattern names. *)
Lemma match_path_names (pat : list segment) (segs : list string)
    (ps : list (string * string)) (name v : string) :
  match_path pat segs = Some ps -> In (name, v) ps -> In (Param name) pat.
Proof.
  revert segs ps. induction pat as [|[l|n] pat IH]; intros [|s segs] ps;
    simpl; try discriminate.
  - by intros [= <-].
  - destruct (eq_ci l s); [|discriminate]. intros M I. right. eauto.
  - destruct (String.eqb s ""); [discriminate|].
    destruct (match_path pat segs) as [ps'|] eqn:M; [|discriminate].
    intros [= <-] [[= <- <-]|I]; [by left|]. right. eauto.
Qed.

(** X12. Who may reach a handler.  Whatever the path, the route that
    serves a POST, PUT or DELETE request starts its chain with [protect]
    and [authorize], in that order; the route that serves a GET request
    has neither; and a route that binds an [id] parameter validates it
    before its handler runs. *)
Theorem mutations_are_guarded (m : method) (segs : list string) (rt : route)
    (ps : list (string * string)) :
  dispatch m segs = Some (rt, ps) ->
  (m = GET -> ~ In protect (r_chain rt) /\ ~ In authorize (r_chain rt)) /\
  (m <> GET -> exists rest, r_chain rt = protect :: authorize :: rest) /\
  (forall v, In ("id", v) ps -> In objectIdValidation (r_chain rt)).
Proof.
  intros (I & <- & M)%first_match_sound.
  assert (In (Param "id") (r_path rt) -> In objectIdValidation (r_chain rt)
          ) as Validated.
  { simpl in I.
    repeat (destruct I as [<-|I];
            [simpl; intros H;
             first [ by repeat (first [left; reflexivity | right])
                   | by repeat (destruct H as [H|H]; try discriminate H) ]
            |]).
    done. }
  split; [|split].
  - intros G. simpl in I.
    repeat (destruct I as [<-|I];
            [first [ discriminate G
                   | simpl; split; intros H;
                     by repeat (destruct H as [H|H]; try discriminate H) ]
            |]).
    done.
  - intros G. simpl in I.
    repeat (destruct I as [<-|I];
            [first [ by destruct G | by eexists ]|]).
    done.
  - intros v Hv. apply Validated. by apply match_path_names with segs ps v.
Qed.

(** X13. Search comes before Get-by-id.  A GET request for the mount point
    is served by List; one for a single segment is served by Search when
    the segment is "search" in any letter case, although the pattern of
    Get-by-id fits that path too, and by Get-by-id for any other segment
    that is not empty; a longer path has no route. *)
Theorem search_before_id (segs : list string) :
  (fun served => r_handler (fst served)) <$> dispatch GET segs
  = match segs with
    | [] => Some to_getAllProducts
    | [s] =>
        if eq_ci "search" s then Some to_searchProducts
        else if String.eqb s "" then None
        else Some to_getProduct
    | _ => None
    end /\
  (forall s, eq_ci "search" s = true ->
             fits GET [s] (mkRoute GET [Param "id"] [objectIdValidation]
                                   to_getProduct) = true).
Proof.
  split.
  - unfold dispatch.
    destruct segs as [|s [|s2 rest]]; simpl; [done| |];
      destruct (eq_ci "search" s); try done;
      by destruct (String.eqb s "").
  - intros s E. unfold fits. simpl.
    destruct s as [|c s]; [discriminate E|done].
Qed.

Lemma eq_ci_clash (l1 l2 s : string) :
  eq_ci l1 s = true -> eq_ci l2 s = true -> lower_string l1 = lower_string l2.
Proof.
  unfold eq_ci. intros E1%String.eqb_eq E2%String.eqb_eq. congruence.
Qed.

(** X14. The order of the routes matters for one path only: apart from
    GET /search, no request fits more than one registered route. *)
Theorem one_route_per_request (m : method) (segs : list string) :
  (length (List.filter (fits m segs) routes) <= 1)%nat \/
  (m = GET /\ exists s, segs = [s] /\ eq_ci "search" s = true).
Proof.
  destruct m; destruct segs as [|a [|b [|c rest]]]; unfold fits; simpl;
    repeat match goal with
           | |- context [eq_ci ?l ?s] => destruct (eq_ci l s) eqn:?
           | |- context [String.eqb ?s ""] => destruct (String.eqb s "") eqn:?
           end;
    simpl;
    first [ left; lia
          | right; split; [done|]; by eexists
          | exfalso;
            match goal with
            | H1 : eq_ci ?l1 ?s = true, H2 : eq_ci ?l2 ?s = true |- _ =>
                let C := fresh in
                pose proof (eq_ci_clash _ _ _ H1 H2) as C;
                vm_compute in C; discriminate C
            end ].
Qed.

(** ** The further properties on the sample catalog *)

Lemma effects_by_route_witness :
  snd (router (GET_products_search (Some "sh.rt")) shop) = shop /\
  products (snd (router (POST_products_upload_images
                           (Some [VStr "front.png"])) shop))
    = products shop.
Proof.
  split.
  - by apply (effects_by_route (GET_products_search (Some "sh.rt")) shop).
  - by apply (effects_by_route
                (POST_products_upload_images (Some [VStr "front.png"])) shop).
Defined.

Lemma refusals_change_nothing_witness :
  fst (router (POST_products_upload_images None) shop)
    = Send 400 (failure "No images provided") /\
  success (failure "No images provided") = false /\
  snd (router (POST_products_upload_images None) shop) = shop.
Proof.
  split; [reflexivity|]. split; [reflexivity|].
  by apply (refusals_change_nothing (POST_products_upload_images None) shop
              400 (failure "No images provided")).
Defined.

Lemma never_removes_a_record_witness :
  is_Some (List.find (has_id (VStr "p1")) (products shop)) /\
  is_Some (List.find (has_id (VStr "p1"))
             (products (snd (router (DELETE_products_id "p1") shop)))).
Proof.
  assert (is_Some (List.find (has_id (VStr "p1")) (products shop))) as H
    by (by eexists).
  split; [exact H|].
  by apply (never_removes_a_record (DELETE_products_id "p1") shop).
Defined.

Lemma updates_compose_witness :
  let b1 : doc := list_to_map [("name", VStr "Cap"); ("brand", VStr "Bolt")] in
  let b2 : doc := list_to_map [("name", VStr "Beret")] in
  List.find (has_id (VStr "p2")) (products shop) = Some hat /\
  loses_save b1 = false /\ loses_save b2 = false /\
  updateProduct "p2" b2 (snd (updateProduct "p2" b1 shop))
    = updateProduct "p2" (b2 ∪ b1) shop.
Proof.
  intros b1 b2. do 3 (split; [reflexivity|]).
  by apply (updates_compose shop "p2" b1 b2 hat).
Defined.

Lemma update_nothing_to_change_witness :
  let body : doc := list_to_map [("_id", VStr "zz"); ("__v", VNum 7)] in
  List.find (has_id (VStr "p2")) (products shop) = Some hat /\
  updateProduct "p2" body shop
    = (Send 200 (done_with "Product updated successfully"
                   (Some (OneProduct hat))), shop).
Proof.
  intros body. split; [reflexivity|].
  apply (update_nothing_to_change shop "p2" body hat); [reflexivity|].
  intros k [v Hk]. unfold body in Hk.
  destruct (decide (k = "_id")) as [->|N1]; [reflexivity|].
  destruct (decide (k = "__v")) as [->|N2]; [reflexivity|].
  simpl in Hk. rewrite !lookup_insert_ne in Hk by done. done.
Defined.

Lemma update_then_get_witness :
  let body : doc := list_to_map [("name", VStr "Cap")] in
  List.find (has_id (VStr "p2")) (products shop) = Some hat /\
  loses_save body = false /\
  exists p',
    fst (getProduct "p2" (snd (updateProduct "p2" body shop)))
      = Send 200 (mkEnvelope true None None None None None
                    (Some (OneProduct p'))) /\
    p' !! "name" = Some (VStr "Cap").
Proof.
  intros body. do 2 (split; [reflexivity|]).
  destruct (update_then_get shop "p2" body hat) as [E _]; [reflexivity..|].
  eexists. rewrite E. split; reflexivity.
Defined.

Lemma delete_stops_at_null_image_witness :
  List.find (has_id (VStr "p3")) (products annex) = Some torn /\
  images_sound torn = false /\
  exists msg, deleteProduct "p3" annex = (Next (TypeError msg), annex).
Proof.
  split; [reflexivity|]. split; [reflexivity|].
  by apply (delete_stops_at_null_image annex "p3" torn).
Defined.

Lemma delete_then_views_witness :
  List.find (has_id (VStr "p1")) (products shop) = Some shirt /\
  images_sound shirt = true /\
  NoDup (ids shop) /\
  forall d,
    d ∈ listed (fst (getAllProducts
                       (mkListRequest None None None None None None)
                       (snd (deleteProduct "p1" shop)))) ->
    field d "_id" <> VStr "p1".
Proof.
  assert (NoDup (ids shop)) as U.
  { apply NoDup_cons. split; [|apply NoDup_singleton].
    by intros [=]%list_elem_of_singleton. }
  split; [reflexivity|]. split; [reflexivity|]. split; [exact U|].
  by apply (delete_then_views shop "p1" shirt).
Defined.

Lemma image_failure_forwarded_or_logged_witness :
  decodeURIComponent "gone" = Resolved "gone" /\
  deleteCloudinaryImage (VStr "gone") (cloud annex)
    = (Rejected (MediaError "not found"), cloud annex) /\
  fst (deleteImage "gone" annex) = Next (MediaError "not found") /\
  fst (deleteProduct "p5" annex)
    = Send 200 (done_with "Product deleted successfully" None).
Proof.
  split; [reflexivity|]. split; [reflexivity|].
  destruct (image_failure_forwarded_or_logged annex "gone"
              (MediaError "not found") (cloud annex))
    as [(E & _) D]; [done|reflexivity|reflexivity|].
  split; [exact E|].
  by destruct (D "p5" vest) as [E' _]; [reflexivity..|].
Defined.

Lemma page_count_witness :
  let req := mkListRequest (Some 2) (Some 1) None None None None in
  0 < default 10 (rq_limit req) /\ 1 <= default 1 (rq_page req) /\
  exists st b,
    fst (getAllProducts req mall) = Send st b /\
    total b = Some 2 /\ count b = Some 1.
Proof.
  intros req.
  assert (0 < default 10 (rq_limit req)) as H1 by (simpl; lia).
  assert (1 <= default 1 (rq_page req)) as H2 by (simpl; lia).
  do 2 (split; [done|]).
  destruct (fst (getAllProducts req mall)) as [st b|e] eqn:E.
  - destruct (page_count req mall st b H1 H2 E) as (n & T & C & _).
    assert (match fst (getAllProducts req mall) with
            | Send _ b => total b
            | Next _ => None
            end = Some 2) as Et by (vm_compute; reflexivity).
    rewrite E, T in Et. injection Et as ->.
    exists st, b. split; [done|]. split; [done|]. exact C.
  - assert (match fst (getAllProducts req mall) with
            | Send _ _ => true
            | Next _ => false
            end = true) as Ee by (vm_compute; reflexivity).
    rewrite E in Ee. discriminate Ee.
Defined.

Lemma mutations_are_guarded_witness :
  dispatch DELETE ["64b7f0c2a1"]
    = Some (mkRoute DELETE [Param "id"]
              [protect; authorize; objectIdValidation] to_deleteProduct,
            [("id", "64b7f0c2a1")]) /\
  In objectIdValidation [protect; authorize; objectIdValidation].
Proof.
  split; [reflexivity|].
  destruct (mutations_are_guarded DELETE ["64b7f0c2a1"] _ _ eq_refl)
    as (_ & _ & V).
  apply (V "64b7f0c2a1"). by left.
Defined.

Lemma update_undoes_delete_witness :
  List.find (has_id (VStr "p1")) (products shop) = Some shirt /\
  images_sound shirt = true /\
  shirt !! "isActive" = Some (VBool true) /\
  exists p2,
    List.find (has_id (VStr "p1"))
      (products (snd (updateProduct "p1" {["isActive" := VBool true]}
                        (snd (deleteProduct "p1" shop)))))
      = Some p2 /\
    p2 !! "isActive" = Some (VBool true) /\
    p2 !! "name" = Some (VStr "Shirt").
Proof.
  do 3 (split; [reflexivity|]).
  destruct (update_undoes_delete shop "p1" shirt)
    as (p2 & _ & F2 & A2 & Same & _); [reflexivity..|].
  exists p2. split; [exact F2|]. split; [exact A2|].
  by rewrite Same.
Defined.

Lemma search_before_id_witness :
  eq_ci "search" "Search" = true /\
  fits GET ["Search"] (mkRoute GET [Param "id"] [objectIdValidation]
                               to_getProduct) = true /\
  (fun served => r_handler (fst served)) <$> dispatch GET ["Search"]
    = Some to_searchProducts.
Proof.
  split; [reflexivity|].
  destruct (search_before_id ["Search"]) as [D Fits].
  split; [by apply Fits|exact D].
Defined.

Lemma created_is_gettable_witness :
  new_id (products shop) = VStr "id2" /\
  List.find (has_id (VStr "id2")) (products shop) = None /\
  exists d,
    fst (duplicateProduct "p2" shop)
      = Send 201 (done_with "Product duplicated successfully"
                    (Some (OneProduct d))) /\
    fst (getProduct "id2" (snd (duplicateProduct "p2" shop)))
      = Send 200 (mkEnvelope true None None None None None
                    (Some (OneProduct
                             (populate_one (shippingStructures shop) d)))).
Proof.
  split; [reflexivity|]. split; [reflexivity|].
  destruct (created_is_gettable shop "id2") as [_ D]; [reflexivity..|].
  destruct (D "p2" hat) as (d & E & G & _); [reflexivity|].
  exists d. by split.
Defined.
